(** * ctx-miner: session memory and context assembly

    A shallow embedding of the two pieces of [ctx-miner] that carry state
    and policy:

    - [ContextGenerator] ([ctx_miner/core/context_generator.py]): the
      formatter that renders search results as a numbered text block, and
      the query helper built on it;
    - [MemoryChatbot] ([examples/chatbot_with_memory.py]): the chatbot that
      buffers the turns of a session, retrieves and deduplicates facts for
      each user input, and saves the session to the memory engine.

    The memory engine itself ([CtxMiner]) and the clock are external: they
    are modelled as functions of the history of calls made so far, and every
    call to them is recorded in a trace. *)

From stdpp Require Import gmap strings list pretty.

Local Open Scope Z_scope.

(** ** The fragment of Python the code relies on *)

Module Py.

(** The line feed character, written [\n] in the source. *)
Definition LF : string := String (Strings.Ascii.ascii_of_nat 10) "".

(** A [str] is a sequence of code points; the embedding covers the code
    points below 256, one per [ascii]. *)

(** The values held by the dictionaries the engine returns: text,
    timestamps, and [None]. A [datetime] is carried as the text [str()]
    gives for it. *)
Inductive value :=
| VNone
| VStr (s : string)
| VDatetime (text : string).

#[global] Instance value_eq_dec : EqDecision value.
Proof. solve_decision. Defined.

(** Truth value testing: [None] and the empty string are false; a
    [datetime] is always true. *)
Definition truthy (v : value) : bool :=
  match v with
  | VNone => false
  | VStr s => bool_decide (s ≠ "")
  | VDatetime _ => true
  end.

(** [str(v)], which is also what an f-string field [{v}] renders. *)
Definition str (v : value) : string :=
  match v with
  | VNone => "None"
  | VStr s => s
  | VDatetime text => text
  end.

(** Exceptions derived from [Exception], with the text [str(e)] gives. *)
Inductive exn :=
| AttributeError (msg : string)
| Exception (msg : string).

Definition str_exn (e : exn) : string :=
  match e with
  | AttributeError msg => msg
  | Exception msg => msg
  end.

(** The outcome of evaluating an expression: a value, or a raised
    exception. *)
Inductive result (A : Type) :=
| Ok (a : A)
| Raise (e : exn).
Arguments Ok {A} a.
Arguments Raise {A} e.

Definition result_bind {A B} (f : A → result B) (r : result A) : result B :=
  match r with
  | Ok a => f a
  | Raise e => Raise e
  end.

#[global] Instance result_ret : MRet result := λ A, Ok.
#[global] Instance result_mbind : MBind result := λ A B, result_bind.

(** [dict.get(key, default)] *)
Definition get (d : gmap string value) (key : string) (default : value) : value :=
  match d !! key with
  | Some v => v
  | None => default
  end.

(** [l[:n]]: the first [n] items, or all but the last [-n] when [n] is
    negative. *)
Definition slice_to {A} (l : list A) (n : Z) : list A :=
  if decide (0 ≤ n) then take (Z.to_nat n) l
  else take (Z.to_nat (Z.of_nat (length l) + n)) l.

(** [l[n:]]: all items from index [n], counted from the end when [n] is
    negative. *)
Definition slice_from {A} (l : list A) (n : Z) : list A :=
  if decide (0 ≤ n) then drop (Z.to_nat n) l
  else drop (Z.to_nat (Z.of_nat (length l) + n)) l.

(** [str.isspace] on one code point below 256: the ASCII controls 9-13
    and 28-31, the space, NEL (0x85) and the no-break space (0xA0). *)
Definition is_space (c : Strings.Ascii.ascii) : bool :=
  let n := Strings.Ascii.nat_of_ascii c in
  ((9 <=? n) && (n <=? 13) || (28 <=? n) && (n <=? 32)
   || (n =? 133) || (n =? 160))%nat.

Fixpoint lstrip (s : string) : string :=
  match s with
  | String c s' => if is_space c then lstrip s' else s
  | EmptyString => EmptyString
  end.

Definition rstrip (s : string) : string :=
  String.rev (lstrip (String.rev s)).

(** [s.strip()] *)
Definition strip (s : string) : string := rstrip (lstrip s).

(** [v.strip()] on a value of any type: only [str] has the method. *)
Definition method_strip (v : value) : result string :=
  match v with
  | VStr s => Ok (strip s)
  | VNone => Raise (AttributeError "'NoneType' object has no attribute 'strip'")
  | VDatetime _ =>
      Raise (AttributeError "'datetime.datetime' object has no attribute 'strip'")
  end.

(** [sep.join(parts)] *)
Definition join (sep : string) (parts : list string) : string :=
  String.concat sep parts.

End Py.
Import Py.

(** ** Data exchanged with the memory engine *)

(** A search result is a [Dict[str, Any]]; the code reads its ["fact"] and
    ["created_at"] keys. *)
Abbreviation SearchResult := (gmap string value).

Record CtxMinerMessage := { role : string; content : string }.

Record CtxMinerEpisode := { messages : list CtxMinerMessage }.

#[global] Instance CtxMinerMessage_eq_dec : EqDecision CtxMinerMessage.
Proof. solve_decision. Defined.

#[global] Instance CtxMinerEpisode_eq_dec : EqDecision CtxMinerEpisode.
Proof. solve_decision. Defined.

Inductive level := DEBUG | INFO | ERROR.

(** What the code does to the outside: calls of the engine's
    [search_context] and [add_episode], and log records. *)
Inductive event :=
| SearchContext (query : string) (limit : Z)
| AddEpisode (episode : CtxMinerEpisode) (name description : string)
| Log (lvl : level) (message : string).

(** The engine, as far as its callers can observe it: what each call
    returns or raises, given the calls made before it. *)
Record CtxMiner := {
  search_context : list event → string → Z → result (list SearchResult);
  add_episode :
    list event → CtxMinerEpisode → string → string → result unit;
}.

(** ** [ContextGenerator] *)

Module ContextGenerator.

Record ContextGenerator := { miner : CtxMiner }.

(** The body of [for i, result in enumerate(..., 1)], from index [i] on,
    extending [context_parts]. *)
Fixpoint format_loop (i : Z) (results : list SearchResult)
    (context_parts : list string) : list string :=
  match results with
  | [] => context_parts
  | result :: rest =>
      let fact := get result "fact" (VStr "") in
      let created_at := get result "created_at" (VStr "") in
      let context_parts :=
        context_parts ++ [LF +:+ pretty i +:+ ". " +:+ str fact] in
      let context_parts :=
        if truthy created_at
        then context_parts ++ ["   (From: " +:+ str created_at +:+ ")"]
        else context_parts in
      format_loop (i + 1) rest context_parts
  end.

(** The list [context_parts] as it stands when the loop ends. *)
Definition context_parts (search_results : list SearchResult)
    (max_contexts : Z) : list string :=
  format_loop 1 (slice_to search_results max_contexts)
    ["Relevant conversation context:"].

Definition format_context_for_llm (search_results : list SearchResult)
    (max_contexts : Z) : string :=
  match search_results with
  | [] => "No relevant context found."
  | _ => join LF (context_parts search_results max_contexts)
  end.

Section Query.
(** [str(results)] for a list of dictionaries, a builtin the embedding
    leaves open. *)
Variable str_results : list SearchResult → string.

(** Given the calls made so far, the outcome of the method and the
    calls made by then. There is no handler around the search: an
    exception it raises is the outcome. *)
Definition get_context_for_query (self : ContextGenerator)
    (query : string) (limit : Z) (format_for_llm : bool)
    (history : list event) : result string * list event :=
  let history' := history ++ [SearchContext query limit] in
  match search_context (miner self) history query limit with
  | Raise e => (Raise e, history')
  | Ok results =>
      if format_for_llm
      then (Ok (format_context_for_llm results 5), history')
      else (Ok (str_results results), history')
  end.
End Query.

End ContextGenerator.

(** ** [MemoryChatbot] *)

Module MemoryChatbot.

Record MemoryChatbot := {
  user_id : string;
  miner : CtxMiner;
  current_session : list CtxMinerMessage;
}.

(** [MemoryChatbot(user_id, miner)] *)
Definition init (user_id : string) (miner : CtxMiner) : MemoryChatbot :=
  {| user_id := user_id; miner := miner; current_session := [] |}.

(** The object a method runs on, and the external calls made so far. *)
Record state := { self : MemoryChatbot; trace : list event }.

(** A method body: it may change the state, and returns or raises. An
    exception leaves the changes made before it in place. *)
Definition M (A : Type) : Type := state → result A * state.

Definition M_ret {A} (a : A) : M A := λ s, (Ok a, s).

Definition M_bind {A B} (f : A → M B) (m : M A) : M B :=
  λ s, match m s with
       | (Ok a, s') => f a s'
       | (Raise e, s') => (Raise e, s')
       end.

#[global] Instance M_mret : MRet M := @M_ret.
#[global] Instance M_mbind : MBind M := @M_bind.

(** [try: body except Exception as e: handler(e)] *)
Definition try_except {A} (body : M A) (handler : exn → M A) : M A :=
  λ s, match body s with
       | (Ok a, s') => (Ok a, s')
       | (Raise e, s') => handler e s'
       end.

Definition lift {A} (r : result A) : M A := λ s, (r, s).

Definition read_self : M MemoryChatbot := λ s, (Ok (self s), s).

Definition history : M (list event) := λ s, (Ok (trace s), s).

Definition emit (e : event) : M unit :=
  λ s, (Ok (), {| self := self s; trace := trace s ++ [e] |}).

(** [logger.debug], [logger.info], [logger.error] *)
Definition logger (lvl : level) (message : string) : M unit :=
  emit (Log lvl message).

(** [self.current_session.append(msg)] *)
Definition append (msg : CtxMinerMessage) : M unit :=
  λ s, (Ok (),
        {| self := {| user_id := user_id (self s);
                      miner := miner (self s);
                      current_session := current_session (self s) ++ [msg] |};
           trace := trace s |}).

(** [self.current_session = []] *)
Definition reset_session : M unit :=
  λ s, (Ok (),
        {| self := {| user_id := user_id (self s);
                      miner := miner (self s);
                      current_session := [] |};
           trace := trace s |}).

(** [await self.miner.search_context(query=..., limit=...)] *)
Definition await_search_context (query : string) (limit : Z)
    : M (list SearchResult) :=
  this ← read_self;
  past ← history;
  emit (SearchContext query limit);;
  lift (search_context (miner this) past query limit).

(** [await self.miner.add_episode(episode=..., name=..., description=...)] *)
Definition await_add_episode (episode : CtxMinerEpisode)
    (name description : string) : M unit :=
  this ← read_self;
  past ← history;
  emit (AddEpisode episode name description);;
  lift (add_episode (miner this) past episode name description).

(** The loop of [get_relevant_context] over [results[:max_contexts]],
    extending [context_parts] and [seen_facts]. *)
Fixpoint context_loop (results : list SearchResult)
    (context_parts : list string) (seen_facts : gset string)
    : result (list string) :=
  match results with
  | [] => Ok context_parts
  | result :: rest =>
      fact ← method_strip (get result "fact" (VStr ""));
      if bool_decide (fact ≠ "") && bool_decide (fact ∉ seen_facts)
      then context_loop rest (context_parts ++ ["- " +:+ fact])
             ({[fact]} ∪ seen_facts)
      else context_loop rest context_parts seen_facts
  end.

Definition get_relevant_context (user_input : string) (max_contexts : Z)
    : M string :=
  try_except
    (results ← await_search_context user_input (max_contexts * 2);
     match results with
     | [] => mret ""
     | _ =>
         context_parts ←
           lift (context_loop (slice_to results max_contexts) [] ∅);
         match context_parts with
         | _ :: _ =>
             mret ("Relevant context from past conversations:" +:+ LF
                   +:+ join LF context_parts)
         | [] => mret ""
         end
     end)
    (λ e,
       logger ERROR ("Error retrieving context: " +:+ str_exn e);;
       mret "").

Definition system_prompt (context : string) : string :=
  "You are a helpful assistant with access to conversation history." +:+ LF
  +:+ "Use the provided context to give personalized and consistent responses." +:+ LF
  +:+ "Remember previous interactions and build upon them." +:+ LF
  +:+ LF +:+ context.

Definition conversation_history (session : list CtxMinerMessage) : string :=
  join LF ((λ msg, role msg +:+ ": " +:+ content msg) <$> slice_from session (-6)).

Definition full_prompt (session : list CtxMinerMessage)
    (user_input context : string) : string :=
  system_prompt context +:+ LF +:+ LF
  +:+ "Recent conversation:" +:+ LF
  +:+ conversation_history session +:+ LF +:+ LF
  +:+ "User: " +:+ user_input +:+ LF
  +:+ "Assistant:".

Definition generate_response (user_input context : string) : M string :=
  this ← read_self;
  logger DEBUG ("Generated prompt:" +:+ LF
                +:+ full_prompt (current_session this) user_input context);;
  mret ("[Simulated response based on context about: " +:+ user_input +:+ "]").

Section Clock.
(** [datetime.now().strftime('%Y%m%d_%H%M%S')], given the calls made
    so far. *)
Variable strftime_now : list event → string.

Definition save_conversation_turn : M unit :=
  this ← read_self;
  if bool_decide (2 ≤ Z.of_nat (length (current_session this))) then
    try_except
      (let episode := {| messages := current_session this |} in
       past ← history;
       await_add_episode episode
         ("Session_" +:+ user_id this +:+ "_" +:+ strftime_now past)
         ("Conversation session for user " +:+ user_id this);;
       logger DEBUG ("Saved conversation turn with "
                     +:+ pretty (Z.of_nat (length (current_session this)))
                     +:+ " messages"))
      (λ e, logger ERROR ("Error saving conversation: " +:+ str_exn e))
  else mret ().

(** The text of the [logger.info] record in [chat]; the pictograph that
    opens it in the source lies outside the code points modelled. *)
Definition retrieved_context_message : string :=
  "Retrieved context for response generation".

Definition chat (user_input : string) : M string :=
  append {| role := "user"; content := user_input |};;
  context ← get_relevant_context user_input 5;
  (if bool_decide (context ≠ "")
   then logger INFO retrieved_context_message
   else mret ());;
  response ← generate_response user_input context;
  append {| role := "assistant"; content := response |};;
  this ← read_self;
  (let n := Z.of_nat (length (current_session this)) in
   if bool_decide (4 ≤ n) && bool_decide (n `mod` 4 = 0)
   then save_conversation_turn
   else mret ());;
  mret response.

Definition end_session : M unit :=
  this ← read_self;
  match current_session this with
  | _ :: _ =>
      save_conversation_turn;;
      reset_session;;
      logger INFO ("Session ended for user " +:+ user_id this)
  | [] => mret ()
  end.
End Clock.

End MemoryChatbot.

(** ** [get_agent_context] *)

(** The function nested in [demonstrate_context_retrieval_for_agent]
    ([examples/chatbot_with_memory.py]). It closes over the engine; its two
    engine calls and its reading of the clock are the section's
    variables. *)
Module AgentContext.

(** A node returned by [search_nodes] is a dictionary as well. *)
Abbreviation Node := (gmap string value).

(** The dictionary the function returns, one field per key. *)
Record AgentContext := {
  query : string;
  relevant_facts : list value;
  relevant_entities : list (gmap string value);
  context_string : string;
  timestamp : string;
}.

Section Closure.
(** [await miner.search_context(query=..., limit=...)] *)
Variable miner_search_context : string → Z → result (list SearchResult).
(** [await miner.search_nodes(query=..., limit=...)] *)
Variable miner_search_nodes : string → Z → result (list Node).
(** [datetime.now().isoformat()] *)
Variable now_isoformat : string.

(** [r.get("fact")], as a condition. *)
Definition has_fact (r : SearchResult) : bool := truthy (get r "fact" VNone).

Definition get_agent_context (query : string) : result AgentContext :=
  results ← miner_search_context query 5;
  nodes ← miner_search_nodes query 3;
  mret {|
    query := query;
    relevant_facts :=
      (λ r, get r "fact" (VStr "")) <$> filter (λ r, has_fact r = true) results;
    relevant_entities :=
      (λ n, {[ "name" := get n "name" (VStr "");
               "summary" := get n "summary" (VStr "") ]}) <$> nodes;
    context_string :=
      join LF ((λ r, "- " +:+ str (get r "fact" (VStr "")))
               <$> filter (λ r, has_fact r = true) (slice_to results 3));
    timestamp := now_isoformat;
  |}.
End Closure.

End AgentContext.

(** ** Vocabulary of the specification *)

(** *** Formatter *)

(** The text of a result's fact: empty when the key is missing. *)
Definition fact_text (r : SearchResult) : string :=
  match r !! "fact" with
  | Some v => str v
  | None => ""
  end.

(** A field is present when its key is bound to something other than
    [None]. *)
Definition present (r : SearchResult) (key : string) : option value :=
  match r !! key with
  | Some VNone | None => None
  | Some v => Some v
  end.

(** Block number [i] for result [r]: the numbered line with the fact text,
    then the indented provenance line when [created_at] is present. *)
Definition rendered_block (i : Z) (r : SearchResult) : list string :=
  (LF +:+ pretty i +:+ ". " +:+ fact_text r) ::
  match present r "created_at" with
  | Some t => ["   (From: " +:+ str t +:+ ")"]
  | None => []
  end.

(** What one iteration of the formatter's loop appends. *)
Definition block (i : Z) (r : SearchResult) : list string :=
  (LF +:+ pretty i +:+ ". " +:+ str (get r "fact" (VStr ""))) ::
  (if truthy (get r "created_at" (VStr ""))
   then ["   (From: " +:+ str (get r "created_at" (VStr "")) +:+ ")"]
   else []).

Fixpoint blocks (i : Z) (rs : list SearchResult) : list (list string) :=
  match rs with
  | [] => []
  | r :: rs' => block i r :: blocks (i + 1) rs'
  end.

(** A part of the output opens a numbered block when it starts with a line
    feed; neither the heading nor a provenance line does. *)
Definition opens_block (part : string) : bool :=
  match part with
  | String c _ => bool_decide (c = Strings.Ascii.ascii_of_nat 10)
  | EmptyString => false
  end.

Definition count_blocks (parts : list string) : nat :=
  length (filter (λ part, opens_block part = true) parts).

(** *** Retriever *)

Definition is_text (v : value) : Prop :=
  match v with
  | VStr _ => True
  | _ => False
  end.

#[global] Instance is_text_dec (v : value) : Decision (is_text v).
Proof. destruct v; simpl; apply _. Defined.

(** Keep the first occurrence of every item, in order. *)
Fixpoint first_occurrences (l : list string) : list string :=
  match l with
  | [] => []
  | x :: l' => x :: filter (λ y, y ≠ x) (first_occurrences l')
  end.

(** The deduplication keys of a list of results: the trimmed fact texts
    that are not empty. *)
Definition dedup_keys (rs : list SearchResult) : list string :=
  filter (λ k, k ≠ "") ((λ r, strip (fact_text r)) <$> rs).

(** The context string for a list of kept facts. *)
Definition render_context (kept : list string) : string :=
  match kept with
  | [] => ""
  | _ => "Relevant context from past conversations:" +:+ LF
         +:+ join LF (String.append "- " <$> kept)
  end.

(** *** Session *)

Import MemoryChatbot.

(** The episodes handed to [add_episode], in call order. *)
Definition submitted (tr : list event) : list CtxMinerEpisode :=
  omap (λ e, match e with AddEpisode ep _ _ => Some ep | _ => None end) tr.

Definition with_session (this : MemoryChatbot)
    (session : list CtxMinerMessage) : MemoryChatbot :=
  {| user_id := user_id this; miner := miner this; current_session := session |}.

Definition response_to (user_input : string) : string :=
  "[Simulated response based on context about: " +:+ user_input +:+ "]".

(** The two turns one call of [chat] appends. *)
Definition exchange (user_input : string) : list CtxMinerMessage :=
  [ {| role := "user"; content := user_input |};
    {| role := "assistant"; content := response_to user_input |} ].

(** The condition under which [chat] saves, on the turn count [n]. *)
Definition flush_due (n : nat) : bool :=
  bool_decide (4 ≤ Z.of_nat n) && bool_decide (Z.of_nat n `mod` 4 = 0).

(** [for user_input in inputs: await bot.chat(user_input)] *)
Definition session_after (clock : list event → string)
    (inputs : list string) (s : state) : state :=
  foldl (λ s user_input, (chat clock user_input s).2) s inputs.

(** Following the specification's words: a flush packages the turns since
    [last_flush_index]. *)
Definition turns_since_boundary (last_flush_index : nat)
    (turns : list CtxMinerMessage) : list CtxMinerMessage :=
  drop last_flush_index turns.

(** *** Engines and a clock to run examples on *)

Definition fixed_clock : list event → string := λ _, "20240101_120000".

(** An engine whose search returns [results] and whose saves succeed. *)
Definition fixed_miner (results : list SearchResult) : CtxMiner :=
  {| search_context := λ _ _ _, Ok results;
     add_episode := λ _ _ _ _, Ok () |}.

(** An engine that cannot be reached. *)
Definition unreachable_miner : CtxMiner :=
  {| search_context := λ _ _ _, Raise (Exception "Connection refused");
     add_episode := λ _ _ _ _, Raise (Exception "Connection refused") |}.

Definition fact (text : string) : SearchResult := {[ "fact" := VStr text ]}.

Definition fresh (user_id : string) (miner : CtxMiner) : state :=
  {| self := init user_id miner; trace := [] |}.

(** *** Whole sessions *)

(** The turns a new session holds after [chat] has run on each of
    [inputs]. *)
Definition turns_of (inputs : list string) : list CtxMinerMessage :=
  inputs ≫= exchange.

(** One episode after every second exchange, each holding all the turns
    so far. *)
Definition periodic_episodes (inputs : list string) : list CtxMinerEpisode :=
  (λ k, {| messages := turns_of (take k inputs) |})
    <$> filter (λ k, Nat.even k = true) (seq 1 (length inputs)).

(** The [search_context] calls of a trace, in call order. *)
Definition searches (tr : list event) : list (string * Z) :=
  omap (λ e, match e with SearchContext q n => Some (q, n) | _ => None end) tr.

(** The records logged at [ERROR] level, in order. *)
Definition errors (tr : list event) : list string :=
  omap (λ e, match e with Log ERROR msg => Some msg | _ => None end) tr.

Definition is_log (e : event) : Prop :=
  match e with
  | Log _ _ => True
  | _ => False
  end.

(** What [save_conversation_turn] emits from state [s]: nothing below two
    turns; otherwise the [add_episode] call and the log record its outcome
    leads to. *)
Definition save_events (clock : list event → string) (s : state)
    : list event :=
  let this := self s in
  let episode := {| messages := current_session this |} in
  let name := "Session_" +:+ user_id this +:+ "_" +:+ clock (trace s) in
  let description := "Conversation session for user " +:+ user_id this in
  if bool_decide (2 ≤ length (current_session this))%nat then
    [ AddEpisode episode name description;
      match add_episode (miner this) (trace s) episode name description with
      | Ok _ =>
          Log DEBUG ("Saved conversation turn with "
                     +:+ pretty (Z.of_nat (length (current_session this)))
                     +:+ " messages")
      | Raise e => Log ERROR ("Error saving conversation: " +:+ str_exn e)
      end ]
  else [].

(** * Properties *)

(** ** Formatter *)

Section Formatter.
Import ContextGenerator.

Lemma format_loop_blocks rs : ∀ i acc,
  format_loop i rs acc = acc ++ concat (blocks i rs).
Proof.
  induction rs as [|r rs IH]; intros i acc; simpl.
  - by rewrite app_nil_r.
  - rewrite IH. unfold block.
    destruct (truthy _); simpl; by rewrite <- !app_assoc.
Qed.

Lemma length_blocks rs : ∀ i, length (blocks i rs) = length rs.
Proof. induction rs; intros; simpl; auto. Qed.

Lemma blocks_lookup rs : ∀ i (j : nat) r,
  rs !! j = Some r → blocks i rs !! j = Some (block (i + Z.of_nat j) r).
Proof.
  induction rs as [|r0 rs IH]; intros i [|j] r Hj; simplify_eq/=.
  - by rewrite Z.add_0_r.
  - rewrite (IH _ _ _ Hj). do 2 f_equal. lia.
Qed.

Lemma context_parts_blocks results max_contexts :
  context_parts results max_contexts =
    "Relevant conversation context:"
    :: concat (blocks 1 (slice_to results max_contexts)).
Proof. unfold context_parts. by rewrite format_loop_blocks. Qed.

Lemma length_slice_to {A} (l : list A) (n : Z) :
  length (slice_to l n) =
    if decide (0 ≤ n) then Nat.min (Z.to_nat n) (length l)
    else Z.to_nat (Z.of_nat (length l) + n).
Proof.
  unfold slice_to. destruct (decide (0 ≤ n)); rewrite length_take; lia.
Qed.

Lemma count_blocks_block i r : count_blocks (block i r) = 1%nat.
Proof.
  unfold count_blocks, block. rewrite filter_cons_True by done.
  destruct (truthy _); [|done].
  by rewrite filter_cons_False.
Qed.

Lemma count_blocks_concat rs : ∀ i,
  count_blocks (concat (blocks i rs)) = length rs.
Proof.
  induction rs as [|r rs IH]; intros i; [done|].
  change (concat (blocks i (r :: rs)))
    with (block i r ++ concat (blocks (i + 1) rs)).
  specialize (IH (i + 1)). pose proof (count_blocks_block i r) as Hb.
  unfold count_blocks in *. rewrite filter_app, length_app, IH, Hb. done.
Qed.

Lemma count_blocks_context_parts results max_contexts :
  count_blocks (context_parts results max_contexts) =
    length (slice_to results max_contexts).
Proof.
  rewrite context_parts_blocks. unfold count_blocks.
  rewrite filter_cons_False by done. apply count_blocks_concat.
Qed.

(** With no empty-string timestamp around, the loop's block is the
    rendered block. *)
Lemma block_rendered i r :
  r !! "created_at" ≠ Some (VStr "") → block i r = rendered_block i r.
Proof.
  intros Hts. unfold block, rendered_block, fact_text, present, get.
  destruct (r !! "fact") as [v|]; simpl;
    (destruct (r !! "created_at") as [[|t|t]|] eqn:Hc; simpl; try done;
     destruct t; [congruence|done]).
Qed.
End Formatter.

Example format_example :
  ContextGenerator.format_context_for_llm
    [ {[ "fact" := VStr "Refunds within 30 days";
         "created_at" := VDatetime "2024-05-01 10:00:00" ]};
      {[ "fact" := VStr "Free shipping over 50" ]};
      {[ "fact" := VStr "Express costs 15" ]} ] 2
  = "Relevant conversation context:" +:+ LF
    +:+ LF +:+ "1. Refunds within 30 days" +:+ LF
    +:+ "   (From: 2024-05-01 10:00:00)" +:+ LF
    +:+ LF +:+ "2. Free shipping over 50".
Proof. vm_compute. reflexivity. Qed.

(** *** The formatter against its specification *)

(** C8. For every list of search results and positive [max_contexts]: the
    formatter returns the fixed sentinel for the empty list; for a
    non-empty list it returns the heading followed by exactly
    [min max_contexts (length results)] blocks, block [j] being the one
    numbered [j + 1] for the [j]-th result in input order: the numbered
    line with the fact text, followed by the indented provenance line
    exactly when [created_at] is present. An empty string does not count
    as a timestamp. *)
Theorem C8_format_numbered_blocks (results : list SearchResult)
    (max_contexts : Z) :
  0 < max_contexts →
  Forall (λ r : SearchResult, r !! "created_at" ≠ Some (VStr "")) results →
  ContextGenerator.format_context_for_llm [] max_contexts
    = "No relevant context found."
  ∧ (results ≠ [] →
     ∃ bs : list (list string),
       ContextGenerator.format_context_for_llm results max_contexts
         = join LF ("Relevant conversation context:" :: concat bs)
       ∧ length bs = Nat.min (Z.to_nat max_contexts) (length results)
       ∧ ∀ (j : nat) r, (j < length bs)%nat → results !! j = Some r →
           bs !! j = Some (rendered_block (Z.of_nat j + 1) r)).
Proof.
  intros Hpos Hts. split; [done|]. intros Hne.
  exists (blocks 1 (slice_to results max_contexts)). split; [|split].
  - destruct results; [done|].
    unfold ContextGenerator.format_context_for_llm.
    by rewrite context_parts_blocks.
  - rewrite length_blocks, length_slice_to. by rewrite decide_True by lia.
  - intros j r Hj Hr. rewrite length_blocks in Hj.
    assert (Hs : slice_to results max_contexts !! j = Some r).
    { unfold slice_to. rewrite decide_True by lia.
      unfold slice_to in Hj. rewrite decide_True in Hj by lia.
      rewrite length_take in Hj. rewrite lookup_take_lt by lia. done. }
    rewrite (blocks_lookup _ _ _ _ Hs).
    rewrite block_rendered.
    + do 2 f_equal. lia.
    + eapply Forall_lookup_1 in Hts; eauto.
Qed.

Lemma C8_format_numbered_blocks_witness :
  let results : list SearchResult :=
    [ {[ "fact" := VStr "Refunds are available within 30 days";
         "created_at" := VDatetime "2024-05-01 10:00:00" ]};
      {[ "fact" := VStr "Shipping is free for orders over 50" ]};
      {[ "fact" := VStr "Express shipping costs 15" ]} ] in
  ContextGenerator.format_context_for_llm [] 2 = "No relevant context found."
  ∧ ∃ bs : list (list string),
      ContextGenerator.format_context_for_llm results 2
        = join LF ("Relevant conversation context:" :: concat bs)
      ∧ length bs = 2%nat
      ∧ ∀ (j : nat) r, (j < length bs)%nat → results !! j = Some r →
          bs !! j = Some (rendered_block (Z.of_nat j + 1) r).
Proof.
  intros results.
  destruct (C8_format_numbered_blocks results 2) as [Hempty Hblocks].
  - lia.
  - repeat constructor; vm_compute; discriminate.
  - split; [exact Hempty|]. apply Hblocks. discriminate.
Defined.

(** C10. For every non-empty list of search results the formatter's output
    is the join of the parts built by its loop, and these hold one numbered
    block per entry of [results[:max_contexts]]: the count is fixed by the
    length of the list and [max_contexts], whatever the facts are, and an
    entry whose fact is missing or empty still gets its block, the number
    followed by empty text. *)
Theorem C10_format_blocks_ignore_fact_contents (results : list SearchResult)
    (max_contexts : Z) :
  results ≠ [] →
  ContextGenerator.format_context_for_llm results max_contexts
    = join LF (ContextGenerator.context_parts results max_contexts)
  ∧ count_blocks (ContextGenerator.context_parts results max_contexts)
    = length (slice_to results max_contexts)
  ∧ (∀ results' : list SearchResult,
       length results' = length results →
       count_blocks (ContextGenerator.context_parts results' max_contexts)
       = count_blocks (ContextGenerator.context_parts results max_contexts))
  ∧ (∀ (j : nat) r,
       slice_to results max_contexts !! j = Some r →
       r !! "fact" = None ∨ r !! "fact" = Some (VStr "") →
       ∃ bs provenance,
         ContextGenerator.context_parts results max_contexts
           = "Relevant conversation context:" :: concat bs
         ∧ bs !! j = Some ((LF +:+ pretty (Z.of_nat j + 1) +:+ ". ") :: provenance)).
Proof.
  intros Hne. split; [|split; [|split]].
  - by destruct results.
  - apply count_blocks_context_parts.
  - intros results' Hlen. rewrite !count_blocks_context_parts.
    by rewrite !length_slice_to, Hlen.
  - intros j r Hj Hfact.
    eexists (blocks 1 (slice_to results max_contexts)), _.
    split; [apply context_parts_blocks|].
    rewrite (blocks_lookup _ _ _ _ Hj). unfold block, get.
    replace (1 + Z.of_nat j) with (Z.of_nat j + 1) by lia.
    destruct Hfact as [-> | ->]; simpl; reflexivity.
Qed.

Lemma C10_format_blocks_ignore_fact_contents_witness :
  let results : list SearchResult :=
    [ {[ "fact" := VStr "" ]}; {[ "created_at" := VDatetime "2024-05-01" ]};
      {[ "fact" := VStr "Express shipping costs 15" ]} ] in
  results ≠ []
  ∧ ContextGenerator.format_context_for_llm results 2
    = join LF (ContextGenerator.context_parts results 2)
  ∧ count_blocks (ContextGenerator.context_parts results 2)
    = length (slice_to results 2)
  ∧ (∀ results' : list SearchResult,
       length results' = length results →
       count_blocks (ContextGenerator.context_parts results' 2)
       = count_blocks (ContextGenerator.context_parts results 2))
  ∧ (∀ (j : nat) r,
       slice_to results 2 !! j = Some r →
       r !! "fact" = None ∨ r !! "fact" = Some (VStr "") →
       ∃ bs provenance,
         ContextGenerator.context_parts results 2
           = "Relevant conversation context:" :: concat bs
         ∧ bs !! j = Some ((LF +:+ pretty (Z.of_nat j + 1) +:+ ". ") :: provenance)).
Proof.
  intros results. split; [discriminate|].
  apply (C10_format_blocks_ignore_fact_contents results 2). discriminate.
Defined.

(** ** Retriever *)

(** Expose what a method body does to the state. *)
Ltac unfold_method :=
  unfold try_except, await_search_context, await_add_episode;
  unfold mbind, mret, M_mbind, M_mret, M_bind, M_ret, logger, lift,
    read_self, history, emit;
  simpl.

Section Retriever.

Lemma first_occurrences_filter (P : string → Prop) `{∀ x, Decision (P x)} l :
  first_occurrences (filter P l) = filter P (first_occurrences l).
Proof.
  induction l as [|x l IH]; simpl; [done|].
  rewrite !filter_cons. destruct (decide (P x)); simpl.
  - rewrite IH. f_equal. rewrite !list_filter_filter.
    apply list_filter_iff. tauto.
  - rewrite IH. rewrite list_filter_filter. apply list_filter_iff.
    intros y. split; [intros; split; [done|congruence] | tauto].
Qed.

Lemma elem_of_first_occurrences l x : x ∈ first_occurrences l ↔ x ∈ l.
Proof.
  induction l as [|y l IH]; simpl; [done|].
  rewrite !elem_of_cons, list_elem_of_filter, IH.
  destruct (decide (x = y)); tauto.
Qed.

Lemma NoDup_first_occurrences l : NoDup (first_occurrences l).
Proof.
  induction l as [|y l IH]; simpl; [constructor|].
  apply NoDup_cons. split.
  - rewrite list_elem_of_filter. tauto.
  - by apply NoDup_filter.
Qed.

Lemma first_occurrences_sublist l : first_occurrences l `sublist_of` l.
Proof.
  induction l as [|y l IH]; simpl; [done|].
  apply sublist_skip. etrans; [apply sublist_filter|done].
Qed.

(** Scanning in rank order: an item is kept exactly when it has not been
    met before, and it is kept after everything kept so far. *)
Lemma first_occurrences_snoc l x :
  first_occurrences (l ++ [x]) =
    if decide (x ∈ l) then first_occurrences l
    else first_occurrences l ++ [x].
Proof.
  induction l as [|y l IH]; simpl.
  - destruct (decide (x ∈ [])) as [Hin|Hin]; [|done].
    by apply not_elem_of_nil in Hin.
  - rewrite IH. destruct (decide (x ∈ l)) as [Hin|Hin].
    + rewrite decide_True by (by right). done.
    + destruct (decide (x = y)) as [->|Hne].
      * rewrite decide_True by (by left). rewrite filter_app.
        rewrite filter_cons_False by tauto. by rewrite app_nil_r.
      * rewrite decide_False by (rewrite elem_of_cons; tauto).
        rewrite filter_app. rewrite filter_cons_True by done. done.
Qed.

(** The same scan, seen from the output: the item at place [i] of the
    result is first met at some rank [j] of the input, and the items
    before it in the result are what the ranks before [j] yield. *)
Section Scan.
Context (P : string → Prop) `{∀ x, Decision (P x)}.

Lemma first_occurrences_filter_snoc l y :
  first_occurrences (filter P (l ++ [y])) =
    if decide (P y ∧ y ∉ l)
    then first_occurrences (filter P l) ++ [y]
    else first_occurrences (filter P l).
Proof.
  rewrite filter_app, filter_cons, filter_nil.
  destruct (decide (P y)) as [Hy|Hy].
  - rewrite first_occurrences_snoc.
    destruct (decide (y ∈ filter P l)) as [Hin|Hin].
    + rewrite decide_False; [done|].
      apply list_elem_of_filter in Hin. tauto.
    + rewrite decide_True; [done|].
      split; [done|]. intros Hl. apply Hin. by apply list_elem_of_filter.
  - rewrite app_nil_r. rewrite decide_False by tauto. done.
Qed.

Lemma first_occurrences_filter_lookup l : ∀ (i : nat) x,
  first_occurrences (filter P l) !! i = Some x →
  ∃ j : nat,
    l !! j = Some x ∧ (x ∉ take j l)
    ∧ first_occurrences (filter P (take j l))
      = take i (first_occurrences (filter P l)).
Proof.
  induction l as [|y l IH] using rev_ind; intros i x Hi.
  - by rewrite filter_nil in Hi.
  - rewrite first_occurrences_filter_snoc in Hi |- *.
    destruct (decide (P y ∧ y ∉ l)) as [[Hy Hnew]|Hold].
    + destruct (decide (i < length (first_occurrences (filter P l)))%nat)
        as [Hlt|Hge].
      * rewrite lookup_app_l in Hi by done.
        destruct (IH _ _ Hi) as (j & Hj & Hfirst & Hpre).
        pose proof (lookup_lt_Some _ _ _ Hj) as Hjl.
        exists j. rewrite lookup_app_l by done.
        rewrite take_app_le by lia. rewrite take_app_le by lia. done.
      * rewrite lookup_app_r in Hi by lia.
        apply list_lookup_singleton_Some in Hi as [Hi ->].
        exists (length l). rewrite list_lookup_middle by done.
        rewrite take_app_length.
        split; [done|]. split; [done|].
        rewrite take_app_le by lia. rewrite take_ge by lia. done.
    + destruct (IH _ _ Hi) as (j & Hj & Hfirst & Hpre).
      pose proof (lookup_lt_Some _ _ _ Hj) as Hjl.
      exists j. rewrite lookup_app_l by done.
      rewrite take_app_le by lia. done.
Qed.
End Scan.

Lemma filter_unseen (seen : gset string) (l : list string) :
  seen = ∅ → filter (λ k, k ∉ seen) l = l.
Proof.
  intros ->. induction l as [|x l IH]; [done|].
  rewrite filter_cons_True by apply not_elem_of_empty. by rewrite IH.
Qed.

Lemma slice_to_nil {A} (n : Z) : slice_to (@nil A) n = [].
Proof. unfold slice_to. destruct (decide (0 ≤ n)); apply take_nil. Qed.

Lemma str_get_fact (r : SearchResult) :
  str (get r "fact" (VStr "")) = fact_text r.
Proof. unfold get, fact_text. by destruct (r !! "fact"). Qed.

(** A text made of white space only trims to the empty string. *)
Lemma lstrip_blank s :
  Forall (λ c, is_space c = true) (String.list_ascii_of_string s) →
  lstrip s = "".
Proof.
  induction s as [|c s IH]; simpl; [done|].
  intros H. inversion H as [|? ? Hc Hs]; subst. rewrite Hc. auto.
Qed.

Lemma strip_blank s :
  Forall (λ c, is_space c = true) (String.list_ascii_of_string s) →
  strip s = "".
Proof. intros H. unfold strip. by rewrite (lstrip_blank s H). Qed.

Lemma context_loop_text rs : ∀ parts seen,
  Forall (λ r, is_text (get r "fact" (VStr ""))) rs →
  context_loop rs parts seen =
    Ok (parts ++ (String.append "- " <$>
          first_occurrences (filter (λ k, k ∉ seen) (dedup_keys rs)))).
Proof.
  induction rs as [|r rs IH]; intros parts seen Hrs; simpl.
  - by rewrite app_nil_r.
  - inversion Hrs as [|? ? Hr Hrs']; subst.
    unfold dedup_keys in *. rewrite fmap_cons, <- str_get_fact.
    destruct (get r "fact" (VStr "")) as [|t|]; try done. simpl.
    rewrite filter_cons.
    destruct (decide (strip t ≠ "")) as [Hne|He].
    + rewrite bool_decide_true by done. simpl. rewrite filter_cons.
      destruct (decide (strip t ∉ seen)) as [Hs|Hs].
      * rewrite bool_decide_true by done. rewrite IH by done.
        simpl. rewrite <- app_assoc. simpl. do 4 f_equal.
        rewrite <- first_occurrences_filter. f_equal.
        generalize (filter (λ k : string, k ≠ "")
          ((λ r, strip (fact_text r)) <$> rs)).
        intros keys. rewrite list_filter_filter.
        apply list_filter_iff. intros k.
        rewrite not_elem_of_union, not_elem_of_singleton. tauto.
      * rewrite bool_decide_false by done. by rewrite IH.
    + rewrite bool_decide_false by done. simpl. by rewrite IH.
Qed.

(** A fact that is not text stops the loop with an [AttributeError]. *)
Lemma context_loop_not_text rs : ∀ parts seen,
  ¬ Forall (λ r, is_text (get r "fact" (VStr ""))) rs →
  ∃ msg, context_loop rs parts seen = Raise (AttributeError msg).
Proof.
  induction rs as [|r rs IH]; intros parts seen Hrs; simpl.
  - destruct Hrs. constructor.
  - destruct (get r "fact" (VStr "")) as [|t|] eqn:Hf; simpl; eauto.
    assert (Hrs' : ¬ Forall (λ r, is_text (get r "fact" (VStr ""))) rs).
    { intros H. apply Hrs. constructor; [by rewrite Hf|done]. }
    destruct (_ && _); eauto.
Qed.

Lemma get_relevant_context_search_fails q n s e :
  search_context (miner (self s)) (trace s) q (n * 2) = Raise e →
  get_relevant_context q n s =
    (Ok "",
     {| self := self s;
        trace := trace s ++
          [SearchContext q (n * 2);
           Log ERROR ("Error retrieving context: " +:+ str_exn e)] |}).
Proof.
  intros H. unfold get_relevant_context. unfold_method. rewrite H. simpl.
  by rewrite <- app_assoc.
Qed.

Lemma get_relevant_context_text q n s results :
  search_context (miner (self s)) (trace s) q (n * 2) = Ok results →
  Forall (λ r, is_text (get r "fact" (VStr ""))) (slice_to results n) →
  get_relevant_context q n s =
    (Ok (render_context (first_occurrences (dedup_keys (slice_to results n)))),
     {| self := self s; trace := trace s ++ [SearchContext q (n * 2)] |}).
Proof.
  intros H Htext. unfold get_relevant_context. unfold_method.
  rewrite H. simpl.
  destruct results as [|r results].
  - rewrite slice_to_nil. done.
  - rewrite (context_loop_text _ [] ∅ Htext), filter_unseen by done. simpl.
    by destruct (first_occurrences _).
Qed.

(** A considered fact that is not text ends retrieval in its handler: the
    context is empty and the error is logged. *)
Lemma get_relevant_context_not_text q n s results :
  search_context (miner (self s)) (trace s) q (n * 2) = Ok results →
  ¬ Forall (λ r, is_text (get r "fact" (VStr ""))) (slice_to results n) →
  ∃ msg,
    get_relevant_context q n s =
      (Ok "",
       {| self := self s;
          trace := trace s ++
            [SearchContext q (n * 2);
             Log ERROR ("Error retrieving context: " +:+ msg)] |}).
Proof.
  intros H Htext. unfold get_relevant_context. unfold_method.
  rewrite H. simpl.
  destruct results as [|r results].
  - destruct Htext. rewrite slice_to_nil. constructor.
  - destruct (context_loop_not_text _ [] ∅ Htext) as [msg ->]. simpl.
    exists msg. by rewrite <- app_assoc.
Qed.
End Retriever.

(** *** The retriever against its specification *)

(** C6. Whenever the engine's search returns [results] whose considered
    facts are text, the context returned by the retriever is rendered from
    a list [kept] of trimmed fact texts in which no text occurs twice,
    which holds exactly the non-empty trimmed texts of the considered
    results, in the engine's order (a sublist of it, nothing re-ranked),
    each at the place of its first occurrence: the text at place [i] is
    first met at some rank [j], and the texts kept before it are those the
    ranks before [j] yield. A fact that is empty or made of white space
    only contributes nothing. *)
Theorem C6_retrieved_facts_deduplicated (s : state) (user_input : string)
    (max_contexts : Z) (results : list SearchResult) :
  search_context (miner (self s)) (trace s) user_input (max_contexts * 2)
    = Ok results →
  Forall (λ r, is_text (get r "fact" (VStr ""))) (slice_to results max_contexts) →
  let considered := slice_to results max_contexts in
  let texts := (λ r, strip (fact_text r)) <$> considered in
  ∃ kept : list string,
    (get_relevant_context user_input max_contexts s).1 = Ok (render_context kept)
    ∧ NoDup kept
    ∧ (∀ k, k ∈ kept ↔ k ∈ texts ∧ k ≠ "")
    ∧ kept `sublist_of` texts
    ∧ kept = first_occurrences (filter (λ k, k ≠ "") texts)
    ∧ (∀ (i : nat) k, kept !! i = Some k →
         ∃ j : nat,
           texts !! j = Some k ∧ (k ∉ take j texts)
           ∧ take i kept
             = first_occurrences (filter (λ k, k ≠ "") (take j texts)))
    ∧ (∀ r, r ∈ considered →
         Forall (λ c, is_space c = true)
           (String.list_ascii_of_string (fact_text r)) →
         strip (fact_text r) ∉ kept).
Proof.
  intros Hsearch Htext considered texts.
  exists (first_occurrences (dedup_keys considered)).
  assert (Hin : ∀ k, k ∈ first_occurrences (dedup_keys considered)
                     ↔ k ∈ texts ∧ k ≠ "").
  { intros k. rewrite elem_of_first_occurrences. unfold dedup_keys.
    rewrite list_elem_of_filter. tauto. }
  split; [|split; [|split; [|split; [|split; [|split]]]]].
  - by rewrite (get_relevant_context_text _ _ _ _ Hsearch Htext).
  - apply NoDup_first_occurrences.
  - exact Hin.
  - etrans; [apply first_occurrences_sublist|]. apply sublist_filter.
  - reflexivity.
  - intros i k Hi.
    destruct (first_occurrences_filter_lookup _ _ _ _ Hi)
      as (j & Hj & Hfirst & Hpre).
    exists j. split; [exact Hj|]. split; [exact Hfirst|].
    symmetry. exact Hpre.
  - intros r _ Hblank Hk. apply Hin in Hk as [_ Hk].
    by rewrite (strip_blank _ Hblank) in Hk.
Qed.

Lemma C6_retrieved_facts_deduplicated_witness :
  let results :=
    [ fact "Refunds within 30 days"; fact "   "; fact "Free shipping over 50";
      fact "  Refunds within 30 days "; fact "Express costs 15" ] in
  let s := fresh "user_001" (fixed_miner results) in
  let considered := slice_to results 5 in
  let texts := (λ r, strip (fact_text r)) <$> considered in
  ∃ kept : list string,
    (get_relevant_context "refund" 5 s).1 = Ok (render_context kept)
    ∧ NoDup kept
    ∧ (∀ k, k ∈ kept ↔ k ∈ texts ∧ k ≠ "")
    ∧ kept `sublist_of` texts
    ∧ kept = first_occurrences (filter (λ k, k ≠ "") texts)
    ∧ (∀ (i : nat) k, kept !! i = Some k →
         ∃ j : nat,
           texts !! j = Some k ∧ (k ∉ take j texts)
           ∧ take i kept
             = first_occurrences (filter (λ k, k ≠ "") (take j texts)))
    ∧ (∀ r, r ∈ considered →
         Forall (λ c, is_space c = true)
           (String.list_ascii_of_string (fact_text r)) →
         strip (fact_text r) ∉ kept).
Proof.
  intros results s.
  apply (C6_retrieved_facts_deduplicated s "refund" 5 results).
  - reflexivity.
  - repeat constructor.
Defined.

Example strip_example :
  strip ("  Refunds within 30 days " +:+ LF) = "Refunds within 30 days".
Proof. vm_compute. reflexivity. Qed.

Example retrieved_facts_example :
  (get_relevant_context "refund" 5
     (fresh "user_001"
        (fixed_miner
           [ fact "Refunds within 30 days"; fact "   ";
             fact "Free shipping over 50";
             fact "  Refunds within 30 days "; fact "Express costs 15" ]))).1
  = Ok ("Relevant context from past conversations:" +:+ LF
        +:+ "- Refunds within 30 days" +:+ LF
        +:+ "- Free shipping over 50" +:+ LF
        +:+ "- Express costs 15").
Proof. vm_compute. reflexivity. Qed.

(** C4. The retriever asks the engine for [2 * max_contexts] results, but
    its loop runs over the first [max_contexts] of them only: here the
    engine returns 6 results holding 5 distinct facts, two of the first
    three are the same fact, and the context for limit 3 holds 2 facts. *)
Theorem C4_surplus_results_never_examined :
  let results :=
    [ fact "Refunds within 30 days"; fact "Refunds within 30 days";
      fact "Refunds need a receipt"; fact "Refunds go to the card";
      fact "Refunds take 5 days"; fact "Refunds exclude shipping" ] in
  let s := fresh "user_001" (fixed_miner results) in
  get_relevant_context "refund" 3 s
  = (Ok ("Relevant context from past conversations:" +:+ LF
         +:+ "- Refunds within 30 days" +:+ LF
         +:+ "- Refunds need a receipt"),
     {| self := self s; trace := [SearchContext "refund" 6] |})
  ∧ length (first_occurrences (dedup_keys results)) = 5%nat.
Proof. split; vm_compute; reflexivity. Qed.

(** ** Session *)

Section Session.
Variable clock : list event → string.

Lemma submitted_app tr1 tr2 :
  submitted (tr1 ++ tr2) = submitted tr1 ++ submitted tr2.
Proof. unfold submitted. by rewrite omap_app. Qed.

Lemma submitted_cons_search q n tr :
  submitted (SearchContext q n :: tr) = submitted tr.
Proof. reflexivity. Qed.

Lemma bind_run {A B} (m : M A) (f : A → M B) s a s' :
  m s = (Ok a, s') → (m ≫= f) s = f a s'.
Proof. intros H. unfold mbind, M_mbind, M_bind. by rewrite H. Qed.

(** Retrieval returns, leaves the chatbot as it was, and makes one
    search call; anything else it emits is a log record. *)
Lemma get_relevant_context_run q n s :
  ∃ ctx logs,
    get_relevant_context q n s =
      (Ok ctx,
       {| self := self s;
          trace := trace s ++ SearchContext q (n * 2) :: logs |})
    ∧ submitted logs = [].
Proof.
  destruct (search_context (miner (self s)) (trace s) q (n * 2))
    as [results|e] eqn:Hsearch.
  - destruct (decide (Forall (λ r, is_text (get r "fact" (VStr "")))
                        (slice_to results n))) as [Htext|Htext].
    + rewrite (get_relevant_context_text _ _ _ _ Hsearch Htext).
      by eexists _, [].
    + destruct (get_relevant_context_not_text _ _ _ _ Hsearch Htext)
        as [msg ->].
      by eexists _, [_].
  - rewrite (get_relevant_context_search_fails _ _ _ _ Hsearch).
    by eexists _, [_].
Qed.

Lemma save_conversation_turn_run s :
  ∃ evs,
    save_conversation_turn clock s =
      (Ok (), {| self := self s; trace := trace s ++ evs |})
    ∧ submitted evs =
        if bool_decide (2 ≤ length (current_session (self s)))%nat
        then [ {| messages := current_session (self s) |} ] else [].
Proof.
  unfold save_conversation_turn. unfold_method.
  destruct s as [this tr]; simpl.
  destruct (decide (2 ≤ length (current_session this))%nat) as [Hlen|Hlen].
  - rewrite bool_decide_true by lia. rewrite bool_decide_true by done.
    destruct (add_episode _ _ _ _ _) as [[]|e]; simpl;
      rewrite <- !app_assoc; simpl; eexists [_; _]; done.
  - rewrite bool_decide_false by lia. rewrite bool_decide_false by done.
    exists []. by rewrite app_nil_r.
Qed.

(** What [chat] does once retrieval has returned [ctx]. *)
Lemma chat_after_retrieval user_input s ctx retrieval :
  get_relevant_context user_input 5
    {| self := with_session (self s)
                 (current_session (self s)
                  ++ [ {| role := "user"; content := user_input |} ]);
       trace := trace s |}
  = (Ok ctx,
     {| self := with_session (self s)
                  (current_session (self s)
                   ++ [ {| role := "user"; content := user_input |} ]);
        trace := trace s ++ retrieval |}) →
  ∃ rest,
    chat clock user_input s =
      (Ok (response_to user_input),
       {| self := with_session (self s)
                    (current_session (self s) ++ exchange user_input);
          trace := trace s ++ retrieval ++ rest |})
    ∧ submitted rest =
        if flush_due (length (current_session (self s)) + 2)
        then [ {| messages := current_session (self s) ++ exchange user_input |} ]
        else [].
Proof.
  destruct s as [this tr]. cbn [self trace]. intros Hctx. unfold chat.
  erewrite bind_run by reflexivity.
  cbn [self trace current_session user_id miner].
  erewrite bind_run by exact Hctx. clear Hctx.
  cbn [self trace current_session user_id miner].
  set (info := if bool_decide (ctx ≠ "")
               then [Log INFO retrieved_context_message] else []).
  erewrite (bind_run _ _ _ ()
              {| self := _; trace := (tr ++ retrieval) ++ info |}); cycle 1.
  { subst info. destruct (bool_decide (ctx ≠ "")); [done|].
    simpl. by rewrite app_nil_r. }
  do 3 (erewrite bind_run by reflexivity;
        cbn [self trace current_session user_id miner with_session]).
  assert (Hlen :
    length ((current_session this
             ++ [{| role := "user"; content := user_input |}])
            ++ [{| role := "assistant"; content := response_to user_input |}])
    = (length (current_session this) + 2)%nat).
  { rewrite !length_app. simpl. lia. }
  unfold response_to in Hlen |- *. rewrite Hlen. fold (response_to user_input).
  fold (flush_due (length (current_session this) + 2)).
  assert (Hinfo : submitted info = [])
    by (subst info; by destruct (bool_decide _)).
  assert (Hsess :
    (current_session this ++ [{| role := "user"; content := user_input |}])
    ++ [{| role := "assistant"; content := response_to user_input |}]
    = current_session this ++ exchange user_input).
  { by rewrite <- app_assoc. }
  rewrite Hsess.
  destruct (flush_due _) eqn:Hdue.
  - edestruct save_conversation_turn_run as (evs & Hsave & Hsub).
    erewrite bind_run by exact Hsave. cbn [self trace current_session] in *.
    eexists. split.
    + unfold mret, M_mret, M_ret, with_session.
      rewrite <- !app_assoc. reflexivity.
    + rewrite !submitted_app, Hinfo, Hsub.
      rewrite bool_decide_true; [done|]. rewrite length_app. simpl. lia.
  - erewrite bind_run by reflexivity.
    eexists. split.
    + unfold mret, M_mret, M_ret, with_session.
      rewrite <- !app_assoc. reflexivity.
    + by rewrite !submitted_app, Hinfo.
Qed.

Lemma chat_run user_input s :
  ∃ evs,
    chat clock user_input s =
      (Ok (response_to user_input),
       {| self := with_session (self s)
                    (current_session (self s) ++ exchange user_input);
          trace := trace s ++ evs |})
    ∧ submitted evs =
        if flush_due (length (current_session (self s)) + 2)
        then [ {| messages := current_session (self s) ++ exchange user_input |} ]
        else [].
Proof.
  edestruct (get_relevant_context_run user_input 5) as (ctx & logs & Hctx & Hlogs).
  edestruct (chat_after_retrieval user_input s) as (rest & Hchat & Hrest).
  { exact Hctx. }
  eexists. split; [exact Hchat|].
  by rewrite submitted_app, submitted_cons_search, Hlogs, Hrest.
Qed.

Lemma chat_returns user_input s :
  (chat clock user_input s).1 = Ok (response_to user_input).
Proof. destruct (chat_run user_input s) as (evs & -> & _). done. Qed.

Lemma chat_self user_input s :
  self (chat clock user_input s).2 =
    with_session (self s) (current_session (self s) ++ exchange user_input).
Proof. destruct (chat_run user_input s) as (evs & -> & _). done. Qed.

Lemma chat_submitted user_input s :
  submitted (trace (chat clock user_input s).2) =
    submitted (trace s) ++
    if flush_due (length (current_session (self s)) + 2)
    then [ {| messages := current_session (self s) ++ exchange user_input |} ]
    else [].
Proof.
  destruct (chat_run user_input s) as (evs & -> & Hsub). simpl.
  by rewrite submitted_app, Hsub.
Qed.

Lemma end_session_run s :
  ∃ evs,
    end_session clock s =
      (Ok (), {| self := with_session (self s) []; trace := trace s ++ evs |})
    ∧ submitted evs =
        if bool_decide (2 ≤ length (current_session (self s)))%nat
        then [ {| messages := current_session (self s) |} ] else [].
Proof.
  unfold end_session. erewrite bind_run by reflexivity.
  destruct (current_session (self s)) as [|msg session] eqn:Hsession.
  - exists []. split; [|done]. destruct s as [[uid m sess] tr].
    simpl in *. subst. unfold mret, M_mret, M_ret, with_session. simpl.
    by rewrite app_nil_r.
  - destruct (save_conversation_turn_run s) as (evs & Hsave & Hsub).
    erewrite bind_run by exact Hsave.
    erewrite bind_run by reflexivity.
    eexists. split.
    + unfold logger, emit, with_session. simpl.
      rewrite <- app_assoc. reflexivity.
    + rewrite submitted_app, Hsub, Hsession. simpl. by rewrite app_nil_r.
Qed.

Lemma end_session_self s :
  self (end_session clock s).2 = with_session (self s) [].
Proof. destruct (end_session_run s) as (evs & -> & _). done. Qed.

Lemma end_session_submitted s :
  submitted (trace (end_session clock s).2) =
    submitted (trace s) ++
    if bool_decide (2 ≤ length (current_session (self s)))%nat
    then [ {| messages := current_session (self s) |} ] else [].
Proof.
  destruct (end_session_run s) as (evs & -> & Hsub). simpl.
  by rewrite submitted_app, Hsub.
Qed.
End Session.

Example two_exchanges_example :
  trace (session_after fixed_clock ["Hi"; "Thanks"]
           (fresh "user_001" (fixed_miner [])))
  = [ SearchContext "Hi" 10;
      Log DEBUG ("Generated prompt:" +:+ LF
                 +:+ full_prompt [ {| role := "user"; content := "Hi" |} ] "Hi" "");
      SearchContext "Thanks" 10;
      Log DEBUG ("Generated prompt:" +:+ LF
                 +:+ full_prompt
                       (exchange "Hi"
                        ++ [ {| role := "user"; content := "Thanks" |} ])
                       "Thanks" "");
      AddEpisode {| messages := exchange "Hi" ++ exchange "Thanks" |}
        "Session_user_001_20240101_120000"
        "Conversation session for user user_001";
      Log DEBUG "Saved conversation turn with 4 messages" ].
Proof. vm_compute. reflexivity. Qed.

(** *** The session against its specification *)

(** C9. Outside [end_session] the buffer only grows at its end: [chat]
    leaves every earlier turn where it was and appends the user message
    and then the assistant message; saving, retrieval and response
    generation leave the chatbot, and so the buffer, as they found it. *)
Theorem C9_buffer_append_only (clock : list event → string) (s : state)
    (user_input context : string) (max_contexts : Z) :
  current_session (self (chat clock user_input s).2)
    = current_session (self s)
      ++ [ {| role := "user"; content := user_input |};
           {| role := "assistant"; content := response_to user_input |} ]
  ∧ (∀ (i : nat) msg,
       current_session (self s) !! i = Some msg →
       current_session (self (chat clock user_input s).2) !! i = Some msg)
  ∧ self (save_conversation_turn clock s).2 = self s
  ∧ self (get_relevant_context user_input max_contexts s).2 = self s
  ∧ self (generate_response user_input context s).2 = self s.
Proof.
  assert (Hchat : current_session (self (chat clock user_input s).2)
                  = current_session (self s) ++ exchange user_input)
    by (by rewrite chat_self).
  split; [exact Hchat|split; [|split; [|split]]].
  - intros i msg Hi. rewrite Hchat. by apply lookup_app_l_Some.
  - by destruct (save_conversation_turn_run clock s) as (evs & -> & _).
  - by destruct (get_relevant_context_run user_input max_contexts s)
      as (ctx & logs & -> & _).
  - reflexivity.
Qed.

(** C5. A call of [chat] that brings the buffer to [n] turns makes one
    [add_episode] call when [4 ≤ n] and [n] is a multiple of 4, and none
    otherwise. From an empty session, two exchanges (4 appended turns) make
    exactly one such call, and after the third append (one exchange and the
    next user message) none has been made. *)
Theorem C5_flush_on_multiples_of_four (clock : list event → string)
    (s : state) (user_input : string)
    (uid : string) (m : CtxMiner) (u1 u2 : string) :
  (let n := Z.of_nat (length (current_session (self s))) + 2 in
   ∃ evs, trace (chat clock user_input s).2 = trace s ++ evs
     ∧ submitted evs =
         if bool_decide (4 ≤ n ∧ n `mod` 4 = 0)
         then [ {| messages := current_session (self s) ++ exchange user_input |} ]
         else [])
  ∧ (let s4 := session_after clock [u1; u2] (fresh uid m) in
     length (current_session (self s4)) = 4%nat
     ∧ length (submitted (trace s4)) = 1%nat)
  ∧ (let s3 := (append {| role := "user"; content := u2 |}
                  (session_after clock [u1] (fresh uid m))).2 in
     length (current_session (self s3)) = 3%nat
     ∧ length (submitted (trace s3)) = 0%nat).
Proof.
  split; [|split].
  - intros n. destruct (chat_run clock user_input s) as (evs & Hrun & Hsub).
    exists evs. rewrite Hrun. split; [done|]. rewrite Hsub.
    unfold flush_due. subst n.
    replace (Z.of_nat (length (current_session (self s)) + 2))
      with (Z.of_nat (length (current_session (self s))) + 2) by lia.
    destruct (decide (4 ≤ Z.of_nat (length (current_session (self s))) + 2));
      destruct (decide ((Z.of_nat (length (current_session (self s))) + 2) `mod` 4 = 0)).
    + by rewrite !bool_decide_true by done.
    + rewrite (bool_decide_false (_ ∧ _)) by tauto.
      rewrite (bool_decide_false (_ = 0)) by done. by rewrite andb_false_r.
    + rewrite (bool_decide_false (_ ∧ _)) by tauto.
      by rewrite (bool_decide_false (4 ≤ _)) by done.
    + rewrite (bool_decide_false (_ ∧ _)) by tauto.
      by rewrite (bool_decide_false (4 ≤ _)) by done.
  - unfold session_after, fresh. simpl.
    rewrite !chat_self, !chat_submitted, !chat_self. done.
  - unfold session_after, fresh. simpl.
    rewrite !chat_self, !chat_submitted. done.
Qed.

(** C1. With turns appended in the order U1, A1, U2, A2, U3, A3: no
    episode is submitted after A1; the save after A2 submits one episode
    holding the four turns U1, A1, U2, A2 and leaves the chatbot with its
    buffer intact (there is no flush boundary to advance); nothing is
    submitted after A3, so U3 and A3 are in no episode until the session
    ends; [end_session] then submits the whole buffer, from U1 to A3. *)
Theorem C1_flush_packages_whole_buffer (clock : list event → string)
    (uid : string) (m : CtxMiner) (tr0 : list event) (u1 u2 u3 : string) :
  let s0 := {| self := init uid m; trace := tr0 |} in
  let s1 := session_after clock [u1] s0 in
  let s2 := session_after clock [u1; u2] s0 in
  let s3 := session_after clock [u1; u2; u3] s0 in
  let s4 := (end_session clock s3).2 in
  let batch := exchange u1 ++ exchange u2 in
  submitted (trace s1) = submitted tr0
  ∧ submitted (trace s2) = submitted tr0 ++ [ {| messages := batch |} ]
  ∧ self s2 = with_session (init uid m) batch
  ∧ submitted (trace s3) = submitted (trace s2)
  ∧ self s3 = with_session (init uid m) (batch ++ exchange u3)
  ∧ submitted (trace s4)
    = submitted (trace s3) ++ [ {| messages := batch ++ exchange u3 |} ]
  ∧ current_session (self s4) = [].
Proof.
  unfold session_after. simpl.
  rewrite end_session_submitted, end_session_self.
  rewrite !chat_submitted, !chat_self. simpl.
  rewrite !app_nil_r. done.
Qed.

(** C1, counterexample. After U1, A1, U2, A2, U3, A3 and [end_session],
    two episodes have been submitted: the first holds U1, A1, U2, A2, and
    the second holds all six turns, not the turns since a boundary at the
    end of the first. *)
Lemma C1_flush_boundary_counterexample :
  let s := (end_session fixed_clock
              (session_after fixed_clock ["U1"; "U2"; "U3"]
                 (fresh "user_001" (fixed_miner [])))).2 in
  let turns := exchange "U1" ++ exchange "U2" ++ exchange "U3" in
  ∃ first second,
    submitted (trace s) = [first; second]
    ∧ messages first = exchange "U1" ++ exchange "U2"
    ∧ messages second = turns
    ∧ messages second ≠ turns_since_boundary (length (messages first)) turns.
Proof.
  eexists _, _. split; [vm_compute; reflexivity|].
  split; [reflexivity|]. split; [reflexivity|]. vm_compute. discriminate.
Qed.

(** C2. A session that has been ended accepts further turns: [end_session]
    leaves an empty buffer, and a call of [chat] after it returns the
    assistant's response without raising and appends the user and the
    assistant message, as on a new session. *)
Theorem C2_chat_after_end_starts_over (clock : list event → string)
    (s : state) (user_input : string) :
  let ended := (end_session clock s).2 in
  current_session (self ended) = []
  ∧ (chat clock user_input ended).1 = Ok (response_to user_input)
  ∧ current_session (self (chat clock user_input ended).2)
    = exchange user_input.
Proof.
  intros ended. subst ended. split; [|split].
  - by rewrite end_session_self.
  - apply chat_returns.
  - by rewrite chat_self, end_session_self.
Qed.

(** C2, counterexample. On a session ended after one exchange, a further
    [chat] call returns normally and changes the buffer. *)
Lemma C2_chat_after_end_counterexample :
  let ended := (end_session fixed_clock
                  (session_after fixed_clock ["Hi! My name is Alice"]
                     (fresh "user_001" (fixed_miner [])))).2 in
  let again := chat fixed_clock "Do you remember me?" ended in
  (∀ e, again.1 ≠ Raise e)
  ∧ current_session (self again.2) ≠ current_session (self ended).
Proof.
  split.
  - intros e. vm_compute. discriminate.
  - vm_compute. discriminate.
Qed.

(** C3. On a session holding at least two turns, a single exchange
    included, [end_session] makes exactly one [add_episode] call, with all
    the buffered turns, and leaves the buffer empty. Every session reached
    through [chat] from a new chatbot that holds a turn holds at least
    two. *)
Theorem C3_end_session_flushes_exchanges (clock : list event → string)
    (s : state) :
  (2 ≤ length (current_session (self s)))%nat →
  (∃ evs,
     end_session clock s
     = (Ok (), {| self := with_session (self s) []; trace := trace s ++ evs |})
     ∧ submitted evs = [ {| messages := current_session (self s) |} ])
  ∧ ∀ uid m tr0 inputs,
      inputs ≠ [] →
      (2 ≤ length (current_session
                     (self (session_after clock inputs
                              {| self := init uid m; trace := tr0 |}))))%nat.
Proof.
  intros Hlen. split.
  - destruct (end_session_run clock s) as (evs & Hrun & Hsub).
    exists evs. split; [done|]. by rewrite Hsub, bool_decide_true.
  - intros uid m tr0 inputs Hne.
    assert (Hgrow : ∀ inputs s0,
      length (current_session (self (session_after clock inputs s0)))
      = (length (current_session (self s0)) + 2 * length inputs)%nat).
    { clear. induction inputs as [|u inputs IH]; intros s0; simpl; [lia|].
      unfold session_after in *. simpl. rewrite IH, chat_self. simpl.
      rewrite length_app. simpl. lia. }
    rewrite Hgrow. destruct inputs; [done|]. simpl. lia.
Qed.

Lemma C3_end_session_flushes_exchanges_witness :
  let s := session_after fixed_clock ["Hello! I'm Bob"]
             (fresh "user_002" (fixed_miner [])) in
  (2 ≤ length (current_session (self s)))%nat
  ∧ (∃ evs,
       end_session fixed_clock s
       = (Ok (), {| self := with_session (self s) []; trace := trace s ++ evs |})
       ∧ submitted evs = [ {| messages := current_session (self s) |} ])
  ∧ (2 ≤ length (current_session
                   (self (session_after fixed_clock
                            ["Hello! I'm Bob"; "I especially like Italian food"]
                            (fresh "user_002" (fixed_miner []))))))%nat.
Proof.
  intros s.
  assert (Hlen : (2 ≤ length (current_session (self s)))%nat)
    by (vm_compute; lia).
  destruct (C3_end_session_flushes_exchanges fixed_clock s Hlen)
    as [Hflush Hreach].
  split; [exact Hlen|]. split; [exact Hflush|].
  apply Hreach. discriminate.
Defined.

(** C3, counterexample. A buffer holding a single turn is cleared by
    [end_session] without any [add_episode] call. *)
Lemma C3_single_turn_counterexample :
  let s := {| self := with_session (init "user_001" (fixed_miner []))
                        [ {| role := "user"; content := "Hello" |} ];
              trace := [] |} in
  submitted (trace (end_session fixed_clock s).2) = []
  ∧ current_session (self (end_session fixed_clock s).2) = [].
Proof. split; reflexivity. Qed.

(** C7. When the engine's search raises on the query, the chatbot's
    retrieval returns the empty context, having recorded the call and
    logged the error, and does not raise; the [chat] call around it returns
    its response, which is not empty, with the error in the log.
    [ContextGenerator.get_context_for_query] has no handler: it makes the
    search call and the exception is its outcome. *)
Theorem C7_search_failure_absorbed_by_chat_only
    (clock : list event → string) (s : state)
    (user_input : string) (max_contexts : Z) (e : exn)
    (str_results : list SearchResult → string)
    (this : ContextGenerator.ContextGenerator) (limit : Z)
    (format_for_llm : bool) (history : list event) :
  (∀ limit,
     search_context (miner (self s)) (trace s) user_input limit = Raise e) →
  search_context (ContextGenerator.miner this) history user_input limit
    = Raise e →
  get_relevant_context user_input max_contexts s
  = (Ok "",
     {| self := self s;
        trace := trace s ++
          [ SearchContext user_input (max_contexts * 2);
            Log ERROR ("Error retrieving context: " +:+ str_exn e) ] |})
  ∧ (∃ response s',
       chat clock user_input s = (Ok response, s')
       ∧ response ≠ ""
       ∧ Log ERROR ("Error retrieving context: " +:+ str_exn e) ∈ trace s')
  ∧ ContextGenerator.get_context_for_query str_results this user_input limit
      format_for_llm history
    = (Raise e, history ++ [SearchContext user_input limit]).
Proof.
  intros Hfail Hquery. split; [|split].
  - by apply get_relevant_context_search_fails.
  - pose proof (get_relevant_context_search_fails user_input 5
        {| self := with_session (self s)
                     (current_session (self s)
                      ++ [ {| role := "user"; content := user_input |} ]);
           trace := trace s |} e (Hfail _)) as Hctx.
    destruct (chat_after_retrieval clock user_input s _ _ Hctx)
      as (rest & Hchat & _).
    eexists _, _. split; [exact Hchat|]. split; [done|].
    simpl. rewrite !elem_of_app, !elem_of_cons. tauto.
  - unfold ContextGenerator.get_context_for_query. by rewrite Hquery.
Qed.

Lemma C7_search_failure_absorbed_by_chat_only_witness :
  let s := fresh "user_001" unreachable_miner in
  let this := {| ContextGenerator.miner := unreachable_miner |} in
  let e := Exception "Connection refused" in
  get_relevant_context "What is the refund policy?" 5 s
  = (Ok "",
     {| self := self s;
        trace := trace s ++
          [ SearchContext "What is the refund policy?" (5 * 2);
            Log ERROR ("Error retrieving context: " +:+ str_exn e) ] |})
  ∧ (∃ response s',
       chat fixed_clock "What is the refund policy?" s = (Ok response, s')
       ∧ response ≠ ""
       ∧ Log ERROR ("Error retrieving context: " +:+ str_exn e) ∈ trace s')
  ∧ ContextGenerator.get_context_for_query (λ _, "") this
      "What is the refund policy?" 10 true []
    = (Raise e, [] ++ [SearchContext "What is the refund policy?" 10]).
Proof.
  intros s this e.
  apply (C7_search_failure_absorbed_by_chat_only fixed_clock s
           "What is the refund policy?" 5 e (λ _, "") this 10 true []).
  - intros limit. reflexivity.
  - reflexivity.
Defined.

(** C7, counterexample. With an engine that cannot be reached,
    [ContextGenerator.get_context_for_query] does not return an empty
    context: it raises the engine's exception. *)
Lemma C7_query_propagates_counterexample :
  let this := {| ContextGenerator.miner := unreachable_miner |} in
  let out := ContextGenerator.get_context_for_query (λ _, "") this
               "I'm having connection issues" 5 true [] in
  out.1 = Raise (Exception "Connection refused")
  ∧ (∀ context, out.1 ≠ Ok context)
  ∧ out.2 = [SearchContext "I'm having connection issues" 5].
Proof.
  split; [reflexivity|]. split; [|reflexivity].
  intros context. vm_compute. discriminate.
Qed.

(** [ContextGenerator.get_context_for_query], which no conversation turn
    encloses, has no handler: a failing search raises out of it. *)
Lemma get_context_for_query_propagates str_results this query limit
    format_for_llm history e :
  search_context (ContextGenerator.miner this) history query limit = Raise e →
  (ContextGenerator.get_context_for_query str_results this query limit
     format_for_llm history).1 = Raise e.
Proof.
  intros H. unfold ContextGenerator.get_context_for_query. by rewrite H.
Qed.

(** * Beyond the specification *)

(** ** Whole sessions *)

Section WholeSessions.
Variable clock : list event → string.

Lemma session_after_snoc inputs u s :
  session_after clock (inputs ++ [u]) s
  = (chat clock u (session_after clock inputs s)).2.
Proof. unfold session_after. by rewrite foldl_app. Qed.

Lemma turns_of_snoc inputs u :
  turns_of (inputs ++ [u]) = turns_of inputs ++ exchange u.
Proof.
  unfold turns_of. rewrite bind_app. f_equal.
Qed.

Lemma length_turns_of inputs :
  length (turns_of inputs) = (2 * length inputs)%nat.
Proof.
  induction inputs as [|u inputs IH]; [done|].
  change (turns_of (u :: inputs)) with (exchange u ++ turns_of inputs).
  rewrite length_app, IH. simpl. lia.
Qed.

Lemma flush_due_double (k : nat) :
  flush_due (2 * k) = Nat.even k && negb (k =? 0)%nat.
Proof.
  unfold flush_due.
  destruct (Nat.Even_or_Odd k) as [[j ->]|[j ->]].
  - replace (Nat.even (2 * j)) with true
      by (symmetry; apply Nat.even_spec; by exists j).
    replace (Z.of_nat (2 * (2 * j))) with (Z.of_nat j * 4) by lia.
    rewrite Z_mod_mult. rewrite (bool_decide_true (0 = 0)) by done.
    rewrite andb_true_r. simpl.
    destruct j as [|j]; simpl; [done|].
    rewrite bool_decide_true by lia. done.
  - replace (Nat.even (2 * j + 1)) with false.
    2:{ symmetry. rewrite <- Nat.negb_odd.
        replace (Nat.odd (2 * j + 1)) with true; [done|].
        symmetry. apply Nat.odd_spec. by exists j. }
    replace (Z.of_nat (2 * (2 * j + 1))) with (2 + Z.of_nat j * 4) by lia.
    rewrite Z_mod_plus_full. rewrite (bool_decide_false (_ = 0)) by done.
    by rewrite andb_false_r.
Qed.

Lemma session_after_self inputs : ∀ s,
  self (session_after clock inputs s)
  = with_session (self s) (current_session (self s) ++ turns_of inputs).
Proof.
  induction inputs as [|u inputs IH] using rev_ind; intros s.
  - unfold session_after, turns_of, with_session. simpl.
    rewrite app_nil_r. by destruct s as [[] ?].
  - rewrite session_after_snoc, chat_self, IH, turns_of_snoc.
    unfold with_session. simpl. by rewrite <- app_assoc.
Qed.

Lemma periodic_episodes_snoc inputs u :
  periodic_episodes (inputs ++ [u])
  = periodic_episodes inputs
    ++ if Nat.even (S (length inputs))
       then [ {| messages := turns_of (inputs ++ [u]) |} ] else [].
Proof.
  unfold periodic_episodes. rewrite length_app.
  change (length [u]) with 1%nat.
  replace (length inputs + 1)%nat with (S (length inputs)) by lia.
  rewrite seq_S, filter_app, fmap_app. f_equal.
  - apply list_fmap_ext. intros i k Hk.
    apply list_elem_of_lookup_2 in Hk.
    apply list_elem_of_filter in Hk as [_ Hk]. apply elem_of_seq in Hk.
    rewrite take_app_le by lia. done.
  - rewrite filter_cons, filter_nil.
    change (1 + length inputs)%nat with (S (length inputs)).
    destruct (Nat.even (S (length inputs))) eqn:He.
    + rewrite decide_True by done. rewrite fmap_cons, fmap_nil.
      rewrite take_ge by (rewrite length_app; simpl; lia). reflexivity.
    + rewrite decide_False by done. done.
Qed.

Lemma session_after_submitted uid m tr0 inputs :
  submitted (trace (session_after clock inputs
                      {| self := init uid m; trace := tr0 |}))
  = submitted tr0 ++ periodic_episodes inputs.
Proof.
  induction inputs as [|u inputs IH] using rev_ind.
  - unfold session_after, periodic_episodes. simpl. by rewrite app_nil_r.
  - rewrite session_after_snoc, chat_submitted, IH, session_after_self.
    rewrite periodic_episodes_snoc, <- app_assoc. f_equal. f_equal.
    simpl. rewrite length_turns_of.
    replace (2 * length inputs + 2)%nat with (2 * S (length inputs))%nat by lia.
    rewrite flush_due_double. simpl. rewrite andb_true_r.
    by rewrite turns_of_snoc.
Qed.
End WholeSessions.

Section SessionEvents.
Variable clock : list event → string.

Lemma searches_app tr1 tr2 : searches (tr1 ++ tr2) = searches tr1 ++ searches tr2.
Proof. unfold searches. by rewrite omap_app. Qed.

Lemma errors_app tr1 tr2 : errors (tr1 ++ tr2) = errors tr1 ++ errors tr2.
Proof. unfold errors. by rewrite omap_app. Qed.

Lemma searches_logs logs : Forall is_log logs → searches logs = [].
Proof.
  induction 1 as [|e logs He _ IH]; [done|]. by destruct e.
Qed.

Lemma submitted_logs logs : Forall is_log logs → submitted logs = [].
Proof.
  induction 1 as [|e logs He _ IH]; [done|]. by destruct e.
Qed.

Lemma searches_save_events s : searches (save_events clock s) = [].
Proof.
  unfold save_events. destruct (bool_decide _); [|done].
  by destruct (add_episode _ _ _ _ _).
Qed.

Lemma save_conversation_turn_eq s :
  save_conversation_turn clock s
  = (Ok (), {| self := self s; trace := trace s ++ save_events clock s |}).
Proof.
  unfold save_conversation_turn, save_events. unfold_method.
  destruct s as [this tr]; simpl.
  destruct (decide (2 ≤ length (current_session this))%nat) as [Hlen|Hlen].
  - rewrite bool_decide_true by lia. rewrite bool_decide_true by done.
    destruct (add_episode _ _ _ _ _) as [[]|e]; simpl;
      by rewrite <- !app_assoc.
  - rewrite bool_decide_false by lia. rewrite bool_decide_false by done.
    by rewrite app_nil_r.
Qed.

(** Retrieval, with what it adds to the trace spelled out. *)
Lemma get_relevant_context_logs q n s :
  ∃ ctx logs,
    get_relevant_context q n s =
      (Ok ctx,
       {| self := self s;
          trace := trace s ++ SearchContext q (n * 2) :: logs |})
    ∧ Forall is_log logs.
Proof.
  destruct (search_context (miner (self s)) (trace s) q (n * 2))
    as [results|e] eqn:Hsearch.
  - destruct (decide (Forall (λ r, is_text (get r "fact" (VStr "")))
                        (slice_to results n))) as [Htext|Htext].
    + rewrite (get_relevant_context_text _ _ _ _ Hsearch Htext).
      by eexists _, [].
    + destruct (get_relevant_context_not_text _ _ _ _ Hsearch Htext)
        as [msg ->].
      eexists _, [_]. split; [done|]. by repeat constructor.
  - rewrite (get_relevant_context_search_fails _ _ _ _ Hsearch).
    eexists _, [_]. split; [done|]. by repeat constructor.
Qed.

(** The whole of what one call of [chat] adds to the trace. *)
Lemma chat_trace user_input s :
  ∃ logs saved,
    trace (chat clock user_input s).2
    = trace s ++ SearchContext user_input 10 :: logs ++ saved
    ∧ Forall is_log logs
    ∧ searches saved = [].
Proof.
  destruct s as [this tr]. unfold chat.
  erewrite bind_run by reflexivity.
  cbn [self trace current_session user_id miner].
  edestruct (get_relevant_context_logs user_input 5) as (ctx & logs & Hctx & Hlogs).
  erewrite bind_run by exact Hctx. clear Hctx.
  cbn [self trace current_session user_id miner].
  set (info := if bool_decide (ctx ≠ "")
               then [Log INFO retrieved_context_message] else []).
  erewrite (bind_run _ _ _ ()
              {| self := _;
                 trace := (tr ++ SearchContext user_input (5 * 2) :: logs)
                          ++ info |}); cycle 1.
  { subst info. destruct (bool_decide (ctx ≠ "")); [done|].
    simpl. by rewrite app_nil_r. }
  do 3 (erewrite bind_run by reflexivity;
        cbn [self trace current_session user_id miner with_session]).
  assert (Hinfo : Forall is_log info)
    by (subst info; destruct (bool_decide _); by repeat constructor).
  destruct (_ && _).
  - rewrite (bind_run _ _ _ _ _ (save_conversation_turn_eq _)).
    cbn [self trace snd mret M_mret M_ret].
    eexists (logs ++ info ++ [_]), _. split; [|split].
    + rewrite <- !app_assoc. simpl. rewrite <- ?app_assoc. reflexivity.
    + repeat (apply Forall_app; split); try done. by repeat constructor.
    + apply searches_save_events.
  - erewrite bind_run by reflexivity.
    cbn [self trace snd mret M_mret M_ret].
    eexists (logs ++ info ++ [_]), []. split; [|split].
    + rewrite app_nil_r. rewrite <- !app_assoc. simpl.
      rewrite <- ?app_assoc. reflexivity.
    + repeat (apply Forall_app; split); try done. by repeat constructor.
    + done.
Qed.

Lemma end_session_eq s :
  current_session (self s) ≠ [] →
  end_session clock s
  = (Ok (),
     {| self := with_session (self s) [];
        trace := trace s ++ save_events clock s
                 ++ [Log INFO ("Session ended for user " +:+ user_id (self s))] |}).
Proof.
  intros Hne. unfold end_session. erewrite bind_run by reflexivity.
  destruct (current_session (self s)) as [|msg session] eqn:Hsession; [done|].
  rewrite (bind_run _ _ _ _ _ (save_conversation_turn_eq _)).
  erewrite bind_run by reflexivity.
  unfold logger, emit, with_session. simpl. by rewrite <- app_assoc.
Qed.

Lemma end_session_empty s :
  current_session (self s) = [] → end_session clock s = (Ok (), s).
Proof.
  intros He. unfold end_session. erewrite bind_run by reflexivity.
  by rewrite He.
Qed.
End SessionEvents.

(** *** Further properties of the session *)

Lemma turns_of_role inputs : ∀ (i : nat) msg,
  turns_of inputs !! i = Some msg →
  role msg = if Nat.even i then "user" else "assistant".
Proof.
  induction inputs as [|u inputs IH]; intros i msg Hi; [done|].
  change (turns_of (u :: inputs)) with (exchange u ++ turns_of inputs) in Hi.
  destruct i as [|[|i]]; simpl in Hi.
  - by inversion Hi.
  - by inversion Hi.
  - apply (IH i msg Hi).
Qed.

(** X1. A session driven through [chat] alone holds, for the inputs given
    so far, the user message and the simulated reply of each input in
    turn: two turns per input, users at the even places and assistants at
    the odd ones. *)
Theorem session_holds_alternating_turns (clock : list event → string)
    (uid : string) (m : CtxMiner) (tr0 : list event) (inputs : list string) :
  let session :=
    current_session
      (self (session_after clock inputs {| self := init uid m; trace := tr0 |})) in
  session = inputs ≫= exchange
  ∧ length session = (2 * length inputs)%nat
  ∧ ∀ (i : nat) msg, session !! i = Some msg →
      role msg = if Nat.even i then "user" else "assistant".
Proof.
  intros session. subst session. rewrite session_after_self. simpl.
  split; [done|]. split; [apply length_turns_of|apply turns_of_role].
Qed.

(** X2. The [add_episode] calls of a session driven through [chat] are
    exactly these: one after every second input, in order, each with all
    the turns the buffer holds by then. *)
Theorem session_submits_after_every_second_input
    (clock : list event → string) (uid : string) (m : CtxMiner)
    (tr0 : list event) (inputs : list string) :
  submitted (trace (session_after clock inputs
                      {| self := init uid m; trace := tr0 |}))
  = submitted tr0
    ++ ((λ k, {| messages := take k inputs ≫= exchange |})
        <$> filter (λ k, Nat.even k = true) (seq 1 (length inputs))).
Proof. apply session_after_submitted. Qed.

(** X3. Ending a session that took at least one input adds one last
    [add_episode] call, with every turn of the session, and empties the
    buffer. *)
Theorem ended_session_submits_every_turn (clock : list event → string)
    (uid : string) (m : CtxMiner) (tr0 : list event) (inputs : list string) :
  inputs ≠ [] →
  let s := session_after clock inputs {| self := init uid m; trace := tr0 |} in
  submitted (trace (end_session clock s).2)
  = submitted (trace s) ++ [ {| messages := inputs ≫= exchange |} ]
  ∧ current_session (self (end_session clock s).2) = [].
Proof.
  intros Hne s. rewrite end_session_submitted, end_session_self.
  split; [|done]. subst s. rewrite session_after_self. simpl.
  rewrite bool_decide_true; [done|].
  rewrite length_turns_of. destruct inputs; [done|]. simpl. lia.
Qed.

Lemma ended_session_submits_every_turn_witness :
  let inputs := ["Hello! I'm Bob"; "What are some easy recipes?";
                 "I especially like Italian food"] in
  let s := session_after fixed_clock inputs
             {| self := init "user_002" (fixed_miner []); trace := [] |} in
  inputs ≠ []
  ∧ submitted (trace (end_session fixed_clock s).2)
    = submitted (trace s) ++ [ {| messages := inputs ≫= exchange |} ]
  ∧ current_session (self (end_session fixed_clock s).2) = [].
Proof.
  intros inputs s. split; [discriminate|].
  apply (ended_session_submits_every_turn fixed_clock "user_002"
           (fixed_miner []) [] inputs).
  discriminate.
Defined.

(** X4. When a session ends after an even number of inputs, the episode
    [end_session] submits repeats the one the last [chat] call has just
    submitted: the same turns are handed to the engine twice in a row. *)
Theorem ended_even_session_submits_twice (clock : list event → string)
    (uid : string) (m : CtxMiner) (tr0 : list event) (inputs : list string) :
  inputs ≠ [] →
  Nat.even (length inputs) = true →
  let s := session_after clock inputs {| self := init uid m; trace := tr0 |} in
  ∃ earlier,
    submitted (trace (end_session clock s).2)
    = earlier ++ [ {| messages := inputs ≫= exchange |};
                   {| messages := inputs ≫= exchange |} ].
Proof.
  intros Hne Heven s.
  rewrite end_session_submitted. subst s.
  rewrite session_after_self, session_after_submitted. simpl.
  rewrite bool_decide_true
    by (rewrite length_turns_of; destruct inputs; [done|simpl; lia]).
  destruct inputs as [|u inputs _] using rev_ind; [done|].
  rewrite periodic_episodes_snoc.
  rewrite length_app in Heven. simpl in Heven.
  replace (length inputs + 1)%nat with (S (length inputs)) in Heven by lia.
  rewrite Heven.
  exists (submitted tr0 ++ periodic_episodes inputs).
  by rewrite <- !app_assoc.
Qed.

Lemma ended_even_session_submits_twice_witness :
  let inputs := ["Hi! My name is Alice"; "Thanks for the suggestions!"] in
  let s := session_after fixed_clock inputs
             {| self := init "user_001" (fixed_miner []); trace := [] |} in
  ∃ earlier,
    submitted (trace (end_session fixed_clock s).2)
    = earlier ++ [ {| messages := inputs ≫= exchange |};
                   {| messages := inputs ≫= exchange |} ].
Proof.
  intros inputs s.
  apply (ended_even_session_submits_twice fixed_clock "user_001"
           (fixed_miner []) [] inputs).
  - discriminate.
  - reflexivity.
Defined.

(** X5. Every episode a session submits is a snapshot of the buffer from
    its first turn: a prefix of the turns the session holds in the end,
    four turns or a multiple of it long. A later episode thus contains
    the turns of every earlier one. *)
Theorem submitted_episodes_are_prefixes (clock : list event → string)
    (uid : string) (m : CtxMiner) (inputs : list string)
    (episode : CtxMinerEpisode) :
  let s := session_after clock inputs (fresh uid m) in
  episode ∈ submitted (trace s) →
  messages episode `prefix_of` current_session (self s)
  ∧ ∃ j : nat, (1 ≤ j)%nat ∧ length (messages episode) = (4 * j)%nat.
Proof.
  intros s Hin. subst s. unfold fresh in *.
  rewrite session_after_submitted in Hin. rewrite session_after_self.
  simpl in *. unfold periodic_episodes in Hin.
  apply list_elem_of_fmap in Hin as (k & -> & Hk).
  apply list_elem_of_filter in Hk as [Heven Hk]. apply elem_of_seq in Hk.
  simpl. split.
  - rewrite <- (take_drop k inputs) at 2. unfold turns_of.
    rewrite bind_app. by apply prefix_app_r.
  - apply Nat.even_spec in Heven as [j ->].
    exists j. split; [lia|]. rewrite length_turns_of, length_take. lia.
Qed.

Lemma submitted_episodes_are_prefixes_witness :
  let inputs := ["Hi"; "Which trails?"; "With waterfalls"; "Thanks!"] in
  let s := session_after fixed_clock inputs (fresh "user_001" (fixed_miner [])) in
  let episode := {| messages := take 2 inputs ≫= exchange |} in
  episode ∈ submitted (trace s)
  ∧ messages episode `prefix_of` current_session (self s)
  ∧ ∃ j : nat, (1 ≤ j)%nat ∧ length (messages episode) = (4 * j)%nat.
Proof.
  intros inputs s episode.
  assert (Hin : episode ∈ submitted (trace s)).
  { vm_compute. apply list_elem_of_here. }
  split; [exact Hin|].
  exact (submitted_episodes_are_prefixes fixed_clock "user_001"
           (fixed_miner []) inputs episode Hin).
Defined.

(** X6. Whatever the engine returns or raises, [chat] returns, and its
    reply is fixed by the user's input alone; each call makes exactly one
    [search_context] call, for the input itself and 10 results. *)
Theorem chat_always_answers (clock : list event → string) (s : state)
    (user_input : string) :
  (chat clock user_input s).1
  = Ok ("[Simulated response based on context about: " +:+ user_input +:+ "]")
  ∧ searches (trace (chat clock user_input s).2)
    = searches (trace s) ++ [(user_input, 10)].
Proof.
  split; [apply chat_returns|].
  destruct (chat_trace clock user_input s) as (logs & saved & -> & Hlogs & Hsaved).
  change (SearchContext user_input 10 :: logs ++ saved)
    with ([SearchContext user_input 10] ++ logs ++ saved).
  rewrite !searches_app, (searches_logs _ Hlogs), Hsaved. done.
Qed.

(** X7. When [add_episode] raises, [save_conversation_turn] still returns:
    the call has been made, the error is logged, and the chatbot is left
    as it was. *)
Theorem save_failure_is_logged (clock : list event → string) (s : state)
    (e : exn) :
  (2 ≤ length (current_session (self s)))%nat →
  (∀ history episode name description,
     add_episode (miner (self s)) history episode name description = Raise e) →
  ∃ name description,
    save_conversation_turn clock s
    = (Ok (),
       {| self := self s;
          trace := trace s ++
            [ AddEpisode {| messages := current_session (self s) |}
                name description;
              Log ERROR ("Error saving conversation: " +:+ str_exn e) ] |}).
Proof.
  intros Hlen Hfail. rewrite save_conversation_turn_eq. unfold save_events.
  rewrite bool_decide_true by done. rewrite Hfail. by eexists _, _.
Qed.

Lemma save_failure_is_logged_witness :
  let s := session_after fixed_clock ["Hello"] (fresh "user_001" unreachable_miner) in
  ∃ name description,
    save_conversation_turn fixed_clock s
    = (Ok (),
       {| self := self s;
          trace := trace s ++
            [ AddEpisode {| messages := current_session (self s) |}
                name description;
              Log ERROR ("Error saving conversation: "
                         +:+ str_exn (Exception "Connection refused")) ] |}).
Proof.
  intros s.
  apply (save_failure_is_logged fixed_clock s (Exception "Connection refused")).
  - vm_compute. lia.
  - reflexivity.
Defined.

(** X8. [end_session] empties the buffer even when the final save fails:
    the turns are then in no episode the engine accepted, and what remains
    of the failure is the logged error. *)
Theorem end_session_clears_after_failed_save (clock : list event → string)
    (s : state) (e : exn) :
  (2 ≤ length (current_session (self s)))%nat →
  (∀ history episode name description,
     add_episode (miner (self s)) history episode name description = Raise e) →
  (end_session clock s).1 = Ok ()
  ∧ current_session (self (end_session clock s).2) = []
  ∧ errors (trace (end_session clock s).2)
    = errors (trace s) ++ ["Error saving conversation: " +:+ str_exn e].
Proof.
  intros Hlen Hfail.
  rewrite end_session_eq by (destruct (current_session (self s)); [simpl in Hlen; lia|done]).
  split; [done|]. split; [done|]. simpl.
  unfold save_events. rewrite bool_decide_true by done. rewrite Hfail.
  by rewrite errors_app.
Qed.

Lemma end_session_clears_after_failed_save_witness :
  let s := session_after fixed_clock ["Hello"; "Bye"]
             (fresh "user_001" unreachable_miner) in
  let e := Exception "Connection refused" in
  (end_session fixed_clock s).1 = Ok ()
  ∧ current_session (self (end_session fixed_clock s).2) = []
  ∧ errors (trace (end_session fixed_clock s).2)
    = errors (trace s) ++ ["Error saving conversation: " +:+ str_exn e].
Proof.
  intros s e.
  apply (end_session_clears_after_failed_save fixed_clock s e).
  - vm_compute. lia.
  - reflexivity.
Defined.

(** X9. Ending a session twice is ending it once: on a session whose
    buffer is empty [end_session] does nothing at all, neither a call nor
    a log record. *)
Theorem end_session_twice (clock : list event → string) (s : state) :
  end_session clock (end_session clock s).2
  = (Ok (), (end_session clock s).2).
Proof.
  apply end_session_empty. by rewrite end_session_self.
Qed.

(** *** Further properties of the retriever *)

(** X10. Retrieval never raises, whatever the engine does: it returns a
    context, leaves the chatbot as it was, makes exactly one
    [search_context] call, asking for twice [max_contexts] results, and
    no [add_episode] call. *)
Theorem retrieval_never_raises (s : state) (user_input : string)
    (max_contexts : Z) :
  let out := get_relevant_context user_input max_contexts s in
  (∃ context, out.1 = Ok context)
  ∧ self out.2 = self s
  ∧ searches (trace out.2)
    = searches (trace s) ++ [(user_input, max_contexts * 2)]
  ∧ submitted (trace out.2) = submitted (trace s).
Proof.
  intros out. subst out.
  destruct (get_relevant_context_logs user_input max_contexts s)
    as (ctx & logs & -> & Hlogs). simpl.
  split; [by exists ctx|]. split; [done|].
  change (SearchContext user_input (max_contexts * 2) :: logs)
    with ([SearchContext user_input (max_contexts * 2)] ++ logs).
  rewrite !searches_app, !submitted_app.
  rewrite (searches_logs _ Hlogs), (submitted_logs _ Hlogs). simpl.
  by rewrite !app_nil_r.
Qed.

(** X11. One considered result whose fact is not text ([None], say) costs
    the whole context: the facts collected from the other results are
    given up, the context returned is empty, and the error is logged. *)
Theorem one_malformed_fact_empties_context (s : state) (user_input : string)
    (max_contexts : Z) (results : list SearchResult) (r : SearchResult) :
  search_context (miner (self s)) (trace s) user_input (max_contexts * 2)
    = Ok results →
  r ∈ slice_to results max_contexts →
  ¬ is_text (get r "fact" (VStr "")) →
  let out := get_relevant_context user_input max_contexts s in
  out.1 = Ok ""
  ∧ ∃ msg, errors (trace out.2)
           = errors (trace s) ++ ["Error retrieving context: " +:+ msg].
Proof.
  intros Hsearch Hr Hbad out. subst out.
  assert (Hnot : ¬ Forall (λ r, is_text (get r "fact" (VStr "")))
                   (slice_to results max_contexts)).
  { intros Hall. apply Hbad. by eapply Forall_forall in Hall. }
  destruct (get_relevant_context_not_text _ _ _ _ Hsearch Hnot) as [msg ->].
  split; [done|]. exists msg. simpl. by rewrite errors_app.
Qed.

Lemma one_malformed_fact_empties_context_witness :
  let results : list SearchResult :=
    [ fact "Refunds within 30 days"; {[ "fact" := VNone ]};
      fact "Free shipping over 50" ] in
  let s := fresh "user_001" (fixed_miner results) in
  let out := get_relevant_context "refund" 5 s in
  out.1 = Ok ""
  ∧ ∃ msg, errors (trace out.2)
           = errors (trace s) ++ ["Error retrieving context: " +:+ msg].
Proof.
  intros results s.
  apply (one_malformed_fact_empties_context s "refund" 5 results
           {[ "fact" := VNone ]}).
  - reflexivity.
  - vm_compute. apply list_elem_of_further, list_elem_of_here.
  - vm_compute. tauto.
Defined.

(** X12. For a [max_contexts] that is not negative the context never
    lists more than [max_contexts] facts, whatever the engine returns or
    raises. The facts listed are the first occurrences of the non-empty
    trimmed texts of the first [max_contexts] results, and none when the
    search raises or one of these facts is not text: they are distinct,
    none is empty, and they come in the engine's order. *)
Theorem context_lists_at_most_max_contexts (s : state) (user_input : string)
    (max_contexts : Z) :
  0 ≤ max_contexts →
  let considered :=
    match search_context (miner (self s)) (trace s) user_input
            (max_contexts * 2) with
    | Ok results => take (Z.to_nat max_contexts) results
    | Raise _ => []
    end in
  let texts := (λ r, strip (fact_text r)) <$> considered in
  let kept :=
    if decide (Forall (λ r, is_text (get r "fact" (VStr ""))) considered)
    then first_occurrences (filter (λ k, k ≠ "") texts)
    else [] in
  (get_relevant_context user_input max_contexts s).1
    = Ok (render_context kept)
  ∧ (length kept ≤ Z.to_nat max_contexts)%nat
  ∧ NoDup kept
  ∧ ("" ∉ kept)
  ∧ kept `sublist_of` texts.
Proof.
  intros Hmax considered texts kept.
  assert (Hprops : (length kept ≤ length considered)%nat ∧ NoDup kept
                   ∧ ("" ∉ kept) ∧ kept `sublist_of` texts).
  { subst kept. destruct (decide _) as [_|_].
    - split; [|split; [|split]].
      + etrans; [apply sublist_length, first_occurrences_sublist|].
        etrans; [apply length_filter|]. subst texts. by rewrite length_fmap.
      + apply NoDup_first_occurrences.
      + rewrite elem_of_first_occurrences, list_elem_of_filter. tauto.
      + etrans; [apply first_occurrences_sublist|]. apply sublist_filter.
    - split; [simpl; lia|]. split; [constructor|].
      split; [apply not_elem_of_nil|apply sublist_nil_l]. }
  destruct Hprops as (Hlen & Hnodup & Hempty & Hsub).
  split; [|split; [|done]].
  - subst kept texts considered.
    destruct (search_context (miner (self s)) (trace s) user_input
                (max_contexts * 2)) as [results|e] eqn:Hsearch.
    + assert (Hslice : slice_to results max_contexts
                       = take (Z.to_nat max_contexts) results).
      { unfold slice_to. by rewrite decide_True by done. }
      rewrite <- Hslice.
      destruct (decide (Forall (λ r, is_text (get r "fact" (VStr "")))
                          (slice_to results max_contexts))) as [Htext|Htext].
      * by rewrite (get_relevant_context_text _ _ _ _ Hsearch Htext).
      * by destruct (get_relevant_context_not_text _ _ _ _ Hsearch Htext)
          as [msg ->].
    + rewrite (get_relevant_context_search_fails _ _ _ _ Hsearch).
      by rewrite decide_True by constructor.
  - etrans; [exact Hlen|]. subst considered.
    destruct (search_context _ _ _ _); [|simpl; lia].
    rewrite length_take. lia.
Qed.

Lemma context_lists_at_most_max_contexts_witness :
  let s := fresh "user_001"
             (fixed_miner [ fact "a"; fact " a"; fact "b"; fact "c" ]) in
  let considered : list SearchResult := [ fact "a"; fact " a"; fact "b" ] in
  let texts := (λ r, strip (fact_text r)) <$> considered in
  let kept := ["a"; "b"] in
  (get_relevant_context "refund" 3 s).1 = Ok (render_context kept)
  ∧ (length kept ≤ Z.to_nat 3)%nat
  ∧ NoDup kept
  ∧ ("" ∉ kept)
  ∧ kept `sublist_of` texts.
Proof.
  intros s considered texts kept.
  apply (context_lists_at_most_max_contexts s "refund" 3). lia.
Defined.

(** X13. The context is fixed by the first [max_contexts] results of the
    search: two searches that agree on them give the same context,
    whatever else they return. *)
Theorem context_fixed_by_first_results (s s' : state)
    (user_input : string) (max_contexts : Z)
    (results results' : list SearchResult) :
  0 ≤ max_contexts →
  search_context (miner (self s)) (trace s) user_input (max_contexts * 2)
    = Ok results →
  search_context (miner (self s')) (trace s') user_input (max_contexts * 2)
    = Ok results' →
  take (Z.to_nat max_contexts) results
    = take (Z.to_nat max_contexts) results' →
  (get_relevant_context user_input max_contexts s).1
  = (get_relevant_context user_input max_contexts s').1.
Proof.
  intros Hmax Hs Hs' Hsame.
  assert (Hslice : slice_to results max_contexts
                   = slice_to results' max_contexts).
  { unfold slice_to. by rewrite !decide_True by done. }
  destruct (decide (Forall (λ r, is_text (get r "fact" (VStr "")))
                      (slice_to results max_contexts))) as [Htext|Htext].
  - rewrite (get_relevant_context_text _ _ _ _ Hs Htext).
    rewrite Hslice in Htext |- *.
    by rewrite (get_relevant_context_text _ _ _ _ Hs' Htext).
  - destruct (get_relevant_context_not_text _ _ _ _ Hs Htext) as [msg ->].
    rewrite Hslice in Htext.
    by destruct (get_relevant_context_not_text _ _ _ _ Hs' Htext) as [msg' ->].
Qed.

Lemma context_fixed_by_first_results_witness :
  let s := fresh "user_001"
             (fixed_miner [ fact "a"; fact "a"; fact "b"; fact "c" ]) in
  let s' := fresh "user_002" (fixed_miner [ fact "a"; fact "a" ]) in
  (get_relevant_context "refund" 2 s).1
  = (get_relevant_context "refund" 2 s').1.
Proof.
  intros s s'.
  apply (context_fixed_by_first_results s s' "refund" 2
           [ fact "a"; fact "a"; fact "b"; fact "c" ] [ fact "a"; fact "a" ]).
  - lia.
  - reflexivity.
  - reflexivity.
  - reflexivity.
Defined.

(** *** Further properties of the formatter *)

Lemma string_app_empty_r (s : string) : s +:+ "" = s.
Proof.
  induction s as [|c s IH]; [done|].
  change (String c s +:+ "") with (String c (s +:+ "")). by rewrite IH.
Qed.

Lemma join_cons_starts (sep head : string) (rest : list string) :
  ∃ tail, join sep (head :: rest) = head +:+ tail.
Proof.
  destruct rest as [|x rest].
  - exists "". by rewrite string_app_empty_r.
  - by eexists.
Qed.

Lemma format_starts_with_heading (results : list SearchResult)
    (max_contexts : Z) :
  results ≠ [] →
  ∃ tail,
    ContextGenerator.format_context_for_llm results max_contexts
    = "Relevant conversation context:" +:+ tail.
Proof.
  intros Hne. destruct results as [|r results]; [done|].
  unfold ContextGenerator.format_context_for_llm.
  rewrite context_parts_blocks. apply join_cons_starts.
Qed.

Lemma format_sentinel_iff (results : list SearchResult) (max_contexts : Z) :
  ContextGenerator.format_context_for_llm results max_contexts
  = "No relevant context found." ↔ results = [].
Proof.
  split.
  - intros Hsentinel. destruct results as [|r results]; [done|].
    destruct (format_starts_with_heading (r :: results) max_contexts)
      as [tail Htail]; [done|].
    rewrite Htail in Hsentinel. discriminate Hsentinel.
  - by intros ->.
Qed.

(** X14. The formatter's answer is the no-context sentinel exactly when
    the list of results is empty: for a non-empty list the answer starts
    with the heading, whatever [max_contexts] is. *)
Theorem sentinel_iff_no_results (results : list SearchResult)
    (max_contexts : Z) :
  (ContextGenerator.format_context_for_llm results max_contexts
   = "No relevant context found." ↔ results = [])
  ∧ (results ≠ [] →
     ∃ tail,
       ContextGenerator.format_context_for_llm results max_contexts
       = "Relevant conversation context:" +:+ tail).
Proof.
  split; [apply format_sentinel_iff|apply format_starts_with_heading].
Qed.

(** X15. Results beyond the budget have no part in the formatter's
    answer: two non-empty lists with the same first [max_contexts] results
    are formatted alike. *)
Theorem format_fixed_by_first_results (results results' : list SearchResult)
    (max_contexts : Z) :
  0 ≤ max_contexts →
  results ≠ [] → results' ≠ [] →
  take (Z.to_nat max_contexts) results = take (Z.to_nat max_contexts) results' →
  ContextGenerator.format_context_for_llm results max_contexts
  = ContextGenerator.format_context_for_llm results' max_contexts.
Proof.
  intros Hmax Hne Hne' Hsame.
  destruct results as [|r results]; [done|].
  destruct results' as [|r' results']; [done|].
  unfold ContextGenerator.format_context_for_llm,
    ContextGenerator.context_parts, slice_to.
  rewrite !decide_True by done. by rewrite Hsame.
Qed.

Lemma format_fixed_by_first_results_witness :
  ContextGenerator.format_context_for_llm
    [ fact "Refunds within 30 days"; fact "Free shipping over 50" ] 1
  = ContextGenerator.format_context_for_llm
      [ fact "Refunds within 30 days"; fact "Express costs 15";
        fact "Returns need a receipt" ] 1.
Proof.
  apply format_fixed_by_first_results; [lia|discriminate|discriminate|reflexivity].
Defined.

(** X16. A budget of zero gives the bare heading for a non-empty list, not
    the sentinel; a negative budget leaves out that many results from the
    end of the list and shows the others. *)
Theorem format_with_budget_zero_or_negative (results : list SearchResult)
    (max_contexts : Z) :
  results ≠ [] →
  max_contexts ≤ 0 →
  (max_contexts = 0 →
   ContextGenerator.format_context_for_llm results max_contexts
   = "Relevant conversation context:")
  ∧ (max_contexts < 0 →
     let shown :=
       take (Z.to_nat (Z.of_nat (length results) + max_contexts)) results in
     ContextGenerator.context_parts results max_contexts
     = ContextGenerator.context_parts shown (Z.of_nat (length shown))
     ∧ count_blocks (ContextGenerator.context_parts results max_contexts)
       = length shown).
Proof.
  intros Hne Hmax. split.
  - intros ->. by destruct results.
  - intros Hneg shown. subst shown. split.
    + unfold ContextGenerator.context_parts, slice_to.
      rewrite decide_False by lia. rewrite decide_True by lia.
      rewrite Nat2Z.id. by rewrite firstn_all.
    + rewrite count_blocks_context_parts. unfold slice_to.
      by rewrite decide_False by lia.
Qed.

Lemma format_with_budget_zero_or_negative_witness :
  let results := [ fact "Refunds within 30 days"; fact "Free shipping over 50";
                   fact "Express costs 15" ] in
  ContextGenerator.format_context_for_llm results 0
    = "Relevant conversation context:"
  ∧ count_blocks (ContextGenerator.context_parts results (-1)) = 2%nat.
Proof.
  intros results. split.
  - apply (format_with_budget_zero_or_negative results 0);
      [discriminate|lia|reflexivity].
  - destruct (format_with_budget_zero_or_negative results (-1))
      as [_ Hneg]; [discriminate|lia|].
    destruct Hneg as [_ ->]; [lia|reflexivity].
Defined.

(** X17. [get_context_for_query] shows at most five results whatever
    [limit] it is given: [limit] goes to the one search call it makes, and
    the formatter runs with its budget of 5. Its answer is the sentinel
    exactly when the search returned nothing. *)
Theorem query_shows_at_most_five (str_results : list SearchResult → string)
    (this : ContextGenerator.ContextGenerator) (query : string) (limit : Z)
    (history : list event) (results : list SearchResult) :
  search_context (ContextGenerator.miner this) history query limit
    = Ok results →
  let out := ContextGenerator.get_context_for_query str_results this query
               limit true history in
  out.2 = history ++ [SearchContext query limit]
  ∧ out.1 = Ok (ContextGenerator.format_context_for_llm results 5)
  ∧ count_blocks (ContextGenerator.context_parts results 5)
    = Nat.min 5 (length results)
  ∧ (out.1 = Ok "No relevant context found." ↔ results = []).
Proof.
  intros Hsearch out. subst out.
  unfold ContextGenerator.get_context_for_query. rewrite Hsearch. simpl.
  split; [done|]. split; [done|]. split.
  - by rewrite count_blocks_context_parts, length_slice_to.
  - rewrite <- (format_sentinel_iff results 5).
    split; [by intros [= ->]|by intros ->].
Qed.

Lemma query_shows_at_most_five_witness :
  let results := fact <$> ["a"; "b"; "c"; "d"; "e"; "f"; "g"] in
  let this := {| ContextGenerator.miner := fixed_miner results |} in
  let out := ContextGenerator.get_context_for_query (λ _, "") this
               "What internet plans do you offer?" 10 true [] in
  out.2 = [] ++ [SearchContext "What internet plans do you offer?" 10]
  ∧ out.1 = Ok (ContextGenerator.format_context_for_llm results 5)
  ∧ count_blocks (ContextGenerator.context_parts results 5)
    = Nat.min 5 (length results)
  ∧ (out.1 = Ok "No relevant context found." ↔ results = []).
Proof.
  intros results this.
  apply (query_shows_at_most_five (λ _, "") this
           "What internet plans do you offer?" 10 [] results).
  reflexivity.
Defined.

(** *** Response generation *)

(** X18. Only the last six turns of the session reach the prompt: with
    them at the end of the buffer, [generate_response] logs the prompt
    built from these six alone, returns its reply, and changes nothing
    else. *)
Theorem prompt_shows_last_six_turns (s : state)
    (older recent : list CtxMinerMessage) (user_input context : string) :
  current_session (self s) = older ++ recent →
  length recent = 6%nat →
  generate_response user_input context s
  = (Ok (response_to user_input),
     {| self := self s;
        trace := trace s ++
          [ Log DEBUG ("Generated prompt:" +:+ LF
                       +:+ full_prompt recent user_input context) ] |}).
Proof.
  intros Hsession Hlen.
  unfold generate_response, logger, emit, read_self.
  unfold mbind, mret, M_mbind, M_mret, M_bind, M_ret. simpl.
  rewrite Hsession. unfold full_prompt, conversation_history, slice_from.
  rewrite decide_False by lia.
  rewrite (decide_False _ (P := 0 ≤ -6)) by lia.
  replace (drop _ (older ++ recent)) with recent.
  2:{ rewrite length_app, Hlen.
      replace (Z.to_nat (Z.of_nat (length older + 6) + -6)) with (length older) by lia.
      by rewrite drop_app_length. }
  replace (drop _ recent) with recent; [done|].
  rewrite Hlen. done.
Qed.

Lemma prompt_shows_last_six_turns_witness :
  let older := exchange "Hi! My name is Alice" in
  let recent := exchange "Which trails?" ++ exchange "With waterfalls"
                ++ exchange "Thanks!" in
  let s := {| self := with_session (init "user_001" (fixed_miner []))
                        (older ++ recent);
              trace := [] |} in
  generate_response "Bye" "" s
  = (Ok (response_to "Bye"),
     {| self := self s;
        trace := trace s ++
          [ Log DEBUG ("Generated prompt:" +:+ LF
                       +:+ full_prompt recent "Bye" "") ] |}).
Proof.
  intros older recent s.
  apply (prompt_shows_last_six_turns s older recent "Bye" "");
    reflexivity.
Defined.

(** *** The agent's context *)

Section AgentContextProperties.
Import AgentContext.
Variable miner_search_context : string → Z → result (list SearchResult).
Variable miner_search_nodes : string → Z → result (list Node).
Variable now_isoformat : string.

Lemma filter_take_prefix {A} (P : A → Prop) `{∀ x, Decision (P x)}
    (n : nat) (l : list A) :
  filter P (take n l) = take (length (filter P (take n l))) (filter P l).
Proof.
  rewrite <- (take_drop n l) at 3. rewrite filter_app.
  by rewrite take_app_length.
Qed.

Lemma has_fact_truthy (r : SearchResult) :
  has_fact r = true → truthy (get r "fact" (VStr "")) = true.
Proof. unfold has_fact, get. by destruct (r !! "fact"). Qed.

Lemma get_agent_context_Ok query ctx :
  get_agent_context miner_search_context miner_search_nodes now_isoformat query
    = Ok ctx →
  ∃ results nodes,
    miner_search_context query 5 = Ok results
    ∧ miner_search_nodes query 3 = Ok nodes
    ∧ ctx = {|
        AgentContext.query := query;
        relevant_facts :=
          (λ r, get r "fact" (VStr "")) <$> filter (λ r, has_fact r = true) results;
        relevant_entities :=
          (λ n, {[ "name" := get n "name" (VStr "");
                   "summary" := get n "summary" (VStr "") ]}) <$> nodes;
        context_string :=
          join LF ((λ r, "- " +:+ str (get r "fact" (VStr "")))
                   <$> filter (λ r, has_fact r = true) (slice_to results 3));
        timestamp := now_isoformat |}.
Proof.
  unfold get_agent_context.
  destruct (miner_search_context query 5) as [results|e]; [|done].
  destruct (miner_search_nodes query 3) as [nodes|e]; [|done].
  intros [= <-]. by exists results, nodes.
Qed.
End AgentContextProperties.

(** X19. In the dictionary [get_agent_context] returns, [relevant_facts]
    holds the fact values of the results that are true values (neither
    missing, [None] nor empty), in the engine's order, and the context
    string lists, one line each, those of them found among the first three
    results: the [k] leading entries of [relevant_facts], where [k], three
    at most, counts the true fact values of the first three results. *)
Theorem agent_context_string_lists_leading_facts
    (miner_search_context : string → Z → result (list SearchResult))
    (miner_search_nodes : string → Z → result (list AgentContext.Node))
    (now_isoformat query : string) (ctx : AgentContext.AgentContext) :
  AgentContext.get_agent_context miner_search_context miner_search_nodes
    now_isoformat query = Ok ctx →
  ∃ results,
    miner_search_context query 5 = Ok results
    ∧ let facts := (λ r : SearchResult, get r "fact" (VStr "")) <$> results in
      let k := length (filter (λ v, truthy v = true) (take 3 facts)) in
      AgentContext.relevant_facts ctx = filter (λ v, truthy v = true) facts
      ∧ (k ≤ 3)%nat
      ∧ AgentContext.context_string ctx
        = join LF ((λ v, "- " +:+ str v)
                   <$> take k (AgentContext.relevant_facts ctx)).
Proof.
  intros Hctx.
  apply get_agent_context_Ok in Hctx as (results & nodes & Hsearch & _ & ->).
  exists results. split; [exact Hsearch|].
  cbn [AgentContext.relevant_facts AgentContext.context_string].
  assert (Hfilter : ∀ l : list SearchResult,
    filter (λ v, truthy v = true) ((λ r, get r "fact" (VStr "")) <$> l)
    = (λ r, get r "fact" (VStr ""))
      <$> filter (λ r, AgentContext.has_fact r = true) l).
  { induction l as [|r l IH]; [done|].
    rewrite fmap_cons, !filter_cons, IH.
    assert (Heq : AgentContext.has_fact r = truthy (get r "fact" (VStr "")))
      by (unfold AgentContext.has_fact, get; by destruct (r !! "fact")).
    rewrite Heq. by destruct (decide _). }
  split; [by rewrite Hfilter|]. split.
  - etrans; [apply length_filter|]. rewrite length_take. lia.
  - rewrite <- (fmap_take _ 3), !Hfilter, length_fmap.
    rewrite <- fmap_take, <- filter_take_prefix.
    unfold slice_to. rewrite decide_True by lia.
    change (Z.to_nat 3) with 3%nat.
    by rewrite <- list_fmap_compose.
Qed.

Lemma agent_context_string_lists_leading_facts_witness :
  let search : string → Z → result (list SearchResult) :=
    λ _ _, Ok [ fact "Refunds within 30 days"; fact "";
                fact "Free shipping over 50"; fact "Express costs 15" ] in
  let nodes : string → Z → result (list AgentContext.Node) := λ _ _, Ok [] in
  ∃ ctx,
    AgentContext.get_agent_context search nodes "2024-05-01T10:00:00"
      "What is the refund policy?" = Ok ctx
    ∧ AgentContext.relevant_facts ctx
      = [ VStr "Refunds within 30 days"; VStr "Free shipping over 50";
          VStr "Express costs 15" ]
    ∧ AgentContext.context_string ctx
      = "- Refunds within 30 days" +:+ LF +:+ "- Free shipping over 50".
Proof.
  intros search nodes. eexists. split; [reflexivity|].
  destruct (agent_context_string_lists_leading_facts search nodes
              "2024-05-01T10:00:00" "What is the refund policy?" _ eq_refl)
    as (results & Hsearch & Hfacts & _ & Hstring).
  injection Hsearch as <-.
  split; [exact Hfacts|]. rewrite Hstring. vm_compute. reflexivity.
Defined.

(** X20. [get_agent_context] lists one entity per node, in the engine's
    order, and each entity has the keys ["name"] and ["summary"] and no
    other, an empty text standing for a key the node lacks. *)
Theorem agent_context_entities
    (miner_search_context : string → Z → result (list SearchResult))
    (miner_search_nodes : string → Z → result (list AgentContext.Node))
    (now_isoformat query : string) (ctx : AgentContext.AgentContext) :
  AgentContext.get_agent_context miner_search_context miner_search_nodes
    now_isoformat query = Ok ctx →
  ∃ nodes,
    miner_search_nodes query 3 = Ok nodes
    ∧ length (AgentContext.relevant_entities ctx) = length nodes
    ∧ ∀ (i : nat) node entity,
        nodes !! i = Some node →
        AgentContext.relevant_entities ctx !! i = Some entity →
        dom entity = ({["name"; "summary"]} : gset string)
        ∧ entity !! "name" = Some (default (VStr "") (node !! "name"))
        ∧ entity !! "summary" = Some (default (VStr "") (node !! "summary")).
Proof.
  intros Hctx.
  apply get_agent_context_Ok in Hctx as (results & nodes & _ & Hnodes & ->).
  exists nodes. simpl. split; [done|]. split; [by rewrite length_fmap|].
  intros i node entity Hi He.
  rewrite list_lookup_fmap, Hi in He. simpl in He. injection He as <-.
  split; [|split].
  - by rewrite dom_insert_L, dom_singleton_L.
  - rewrite lookup_insert_eq. unfold get. by destruct (node !! "name").
  - rewrite lookup_insert_ne by done. rewrite lookup_singleton_eq.
    unfold get. by destruct (node !! "summary").
Qed.

Lemma agent_context_entities_witness :
  let search : string → Z → result (list SearchResult) := λ _ _, Ok [] in
  let node : AgentContext.Node :=
    {[ "name" := VStr "Refund policy"; "uuid" := VStr "n1" ]} in
  let search_nodes : string → Z → result (list AgentContext.Node) :=
    λ _ _, Ok [node] in
  ∃ ctx,
    AgentContext.get_agent_context search search_nodes "2024-05-01T10:00:00"
      "What is the refund policy?" = Ok ctx
    ∧ ∃ nodes,
        search_nodes "What is the refund policy?" 3 = Ok nodes
        ∧ length (AgentContext.relevant_entities ctx) = length nodes
        ∧ ∀ (i : nat) node entity,
            nodes !! i = Some node →
            AgentContext.relevant_entities ctx !! i = Some entity →
            dom entity = ({["name"; "summary"]} : gset string)
            ∧ entity !! "name" = Some (default (VStr "") (node !! "name"))
            ∧ entity !! "summary"
              = Some (default (VStr "") (node !! "summary")).
Proof.
  intros search node search_nodes. eexists. split; [reflexivity|].
  apply (agent_context_entities search search_nodes "2024-05-01T10:00:00"
           "What is the refund policy?").
  reflexivity.
Defined.

(** X21. [get_agent_context] has no handler of its own. It raises what
    [search_context] raises, without going on to [search_nodes]' outcome,
    and what [search_nodes] raises after a search that returned. *)
Theorem agent_context_errors_propagate
    (miner_search_context : string → Z → result (list SearchResult))
    (miner_search_nodes : string → Z → result (list AgentContext.Node))
    (now_isoformat query : string) (e : exn) :
  AgentContext.get_agent_context miner_search_context miner_search_nodes
    now_isoformat query = Raise e
  ↔ miner_search_context query 5 = Raise e
    ∨ ((∃ results, miner_search_context query 5 = Ok results)
       ∧ miner_search_nodes query 3 = Raise e).
Proof.
  unfold AgentContext.get_agent_context.
  destruct (miner_search_context query 5) as [results|e1]; simpl.
  - destruct (miner_search_nodes query 3) as [nodes|e2]; simpl.
    + split; [done|]. intros [|[_ ?]]; done.
    + split; [intros [= ->]; right; eauto|]. by intros [|[_ [= ->]]].
  - split; [intros [= ->]; by left|]. intros [[= ->]|[[? ?] _]]; done.
Qed.
